(** * todochainz: the hash-chained todo list of [main.go]

    A shallow embedding of the chain engine of [main.go] (record hashing,
    block construction, validity check, lookups, chain replacement and the
    four mutating HTTP handlers) together with the properties of its
    specification.

    Conventions.
    - Go's [int] is the 64-bit two's-complement integer: a [Z] with the
      wrap-around written out ([int_add]).
    - Go's [string] is a byte string: [String.string].
    - [time.Time], its [String] method and [time.Now] belong to the Go
      library, not to the repository: they are section variables.
    - [crypto/sha256] and [encoding/hex] are written out after FIPS 180-4,
      so that [calculateHash] evaluates on concrete records. *)

From Stdlib Require Import ZArith List String Ascii Bool Lia.
From Stdlib Require Import Init.Byte.
Import ListNotations.

Local Open Scope Z_scope.

(** ** crypto/sha256 (FIPS 180-4) and encoding/hex *)

Module SHA256.

Definition mask32 : Z := 0xFFFFFFFF.
Definition w32 (x : Z) : Z := Z.land x mask32.
Definition add32 (x y : Z) : Z := w32 (x + y).
Definition rotr (n x : Z) : Z :=
  w32 (Z.lor (Z.shiftr x n) (Z.shiftl x (32 - n))).
Definition not32 (x : Z) : Z := Z.lxor x mask32.

Definition Ch (x y z : Z) : Z := Z.lxor (Z.land x y) (Z.land (not32 x) z).
Definition Maj (x y z : Z) : Z :=
  Z.lxor (Z.lxor (Z.land x y) (Z.land x z)) (Z.land y z).
Definition Sigma0 (x : Z) : Z := Z.lxor (Z.lxor (rotr 2 x) (rotr 13 x)) (rotr 22 x).
Definition Sigma1 (x : Z) : Z := Z.lxor (Z.lxor (rotr 6 x) (rotr 11 x)) (rotr 25 x).
Definition sigma0 (x : Z) : Z := Z.lxor (Z.lxor (rotr 7 x) (rotr 18 x)) (Z.shiftr x 3).
Definition sigma1 (x : Z) : Z := Z.lxor (Z.lxor (rotr 17 x) (rotr 19 x)) (Z.shiftr x 10).

(** The round constants are the first 32 bits of the fractional parts of
    the cube roots of the first 64 primes, the initial hash value those of
    the square roots of the first 8 primes (FIPS 180-4, 4.2.2 and 5.3.3). *)
Definition primes : list Z :=
  [ 2; 3; 5; 7; 11; 13; 17; 19; 23; 29; 31; 37; 41; 43; 47; 53;
    59; 61; 67; 71; 73; 79; 83; 89; 97; 101; 103; 107; 109; 113; 127; 131;
    137; 139; 149; 151; 157; 163; 167; 173; 179; 181; 191; 193; 197; 199;
    211; 223; 227; 229; 233; 239; 241; 251; 257; 263; 269; 271; 277; 281;
    283; 293; 307; 311 ].

(** The largest [r] below [2 ^ bits] with [r ^ 3 <= n], bit by bit. *)
Fixpoint cube_root (bits : nat) (n r : Z) : Z :=
  match bits with
  | O => r
  | S b =>
      let r' := r + 2 ^ Z.of_nat b in
      if r' * r' * r' <=? n then cube_root b n r' else cube_root b n r
  end.

Definition K : list Z :=
  map (fun p => w32 (cube_root 36 (p * 2 ^ 96) 0)) primes.

Definition H0 : list Z :=
  map (fun p => w32 (Z.sqrt (p * 2 ^ 64))) (firstn 8 primes).

(** Message padding: a 1 bit, zeros up to 56 mod 64 bytes, then the bit
    length as a 64-bit big-endian integer. *)
Fixpoint be_bytes (n : nat) (x : Z) : list Z :=
  match n with
  | O => []
  | S n' => Z.land (Z.shiftr x (8 * Z.of_nat n')) 0xFF :: be_bytes n' x
  end.

Definition pad (msg : list Z) : list Z :=
  let len := Z.of_nat (List.length msg) in
  let zeros := Z.to_nat ((55 - len) mod 64) in
  (msg ++ [0x80] ++ repeat 0 zeros ++ be_bytes 8 (8 * len))%list.

(** Big-endian words of a byte sequence. *)
Fixpoint words (n : nat) (bs : list Z) : list Z :=
  match n, bs with
  | S n', b0 :: b1 :: b2 :: b3 :: rest =>
      (Z.shiftl b0 24 + Z.shiftl b1 16 + Z.shiftl b2 8 + b3) :: words n' rest
  | _, _ => []
  end.

(** The message schedule, latest word first: [rev] holds W[t-1], W[t-2], ... *)
Fixpoint schedule (n : nat) (rev : list Z) : list Z :=
  match n with
  | O => rev
  | S n' =>
      let wt := add32 (add32 (sigma1 (nth 1 rev 0)) (nth 6 rev 0))
                      (add32 (sigma0 (nth 14 rev 0)) (nth 15 rev 0)) in
      schedule n' (wt :: rev)
  end.

Record regs : Type :=
  mkRegs { ra : Z; rb : Z; rc : Z; rd : Z; re : Z; rf : Z; rg : Z; rh : Z }.

Definition round (r : regs) (kw : Z * Z) : regs :=
  let '(k, w) := kw in
  let t1 := add32 (add32 (add32 (rh r) (Sigma1 (re r)))
                         (add32 (Ch (re r) (rf r) (rg r)) k)) w in
  let t2 := add32 (Sigma0 (ra r)) (Maj (ra r) (rb r) (rc r)) in
  mkRegs (add32 t1 t2) (ra r) (rb r) (rc r) (add32 (rd r) t1) (re r) (rf r) (rg r).

Definition regs_of (h : list Z) : regs :=
  mkRegs (nth 0 h 0) (nth 1 h 0) (nth 2 h 0) (nth 3 h 0)
         (nth 4 h 0) (nth 5 h 0) (nth 6 h 0) (nth 7 h 0).

Definition list_of (r : regs) : list Z :=
  [ra r; rb r; rc r; rd r; re r; rf r; rg r; rh r].

Definition compress (h : list Z) (block : list Z) : list Z :=
  let ws := List.rev (schedule 48 (List.rev (words 16 block))) in
  let r := fold_left round (combine K ws) (regs_of h) in
  map (fun p => add32 (fst p) (snd p)) (combine h (list_of r)).

Fixpoint blocks (n : nat) (h : list Z) (bs : list Z) : list Z :=
  match n with
  | O => h
  | S n' => blocks n' (compress h (firstn 64 bs)) (skipn 64 bs)
  end.

Definition digest (msg : list Z) : list Z :=
  let p := pad msg in
  flat_map (be_bytes 4) (blocks (Nat.div (List.length p) 64) H0 p).

(** [sha256.Sum256] on bytes. *)
Definition sum (msg : list byte) : list byte :=
  map (fun z => match Byte.of_N (Z.to_N z) with Some b => b | None => x00 end)
      (digest (map (fun b => Z.of_N (Byte.to_N b)) msg)).

End SHA256.

(** [hex.EncodeToString]: two lower-case hexadecimal digits per byte. *)
Definition hexdigit (n : N) : ascii :=
  ascii_of_N (if (n <? 10)%N then 48 + n else 87 + n)%N.

Fixpoint EncodeToString (bs : list byte) : string :=
  match bs with
  | [] => EmptyString
  | b :: rest =>
      let n := Byte.to_N b in
      String (hexdigit (N.div n 16)) (String (hexdigit (N.modulo n 16)) (EncodeToString rest))
  end.

(** ** Go's [int] and the conversion [string(int)] *)

(** 64-bit two's-complement wrap-around. *)
Definition int_wrap (z : Z) : Z := (z + 2 ^ 63) mod 2 ^ 64 - 2 ^ 63.
Definition int_add (a b : Z) : Z := int_wrap (a + b).

(** The conversion to [rune] ([int32]) keeps the low 32 bits. *)
Definition int32_wrap (z : Z) : Z := (z + 2 ^ 31) mod 2 ^ 32 - 2 ^ 31.

Definition RuneError : Z := 0xFFFD.
Definition MaxRune : Z := 0x10FFFF.
Definition surrogateMin : Z := 0xD800.
Definition surrogateMax : Z := 0xDFFF.

Definition chr (z : Z) : ascii := ascii_of_N (Z.to_N z).

Definition utf8_3 (r : Z) : string :=
  String (chr (Z.lor 0xE0 (Z.shiftr r 12)))
    (String (chr (Z.lor 0x80 (Z.land (Z.shiftr r 6) 0x3F)))
       (String (chr (Z.lor 0x80 (Z.land r 0x3F))) EmptyString)).

(** [encoderune] of the Go runtime: the switch is on [uint32(r)]. *)
Definition encoderune (r : Z) : string :=
  let i := r mod 2 ^ 32 in
  if i <=? 0x7F then String (chr r) EmptyString
  else if i <=? 0x7FF then
    String (chr (Z.lor 0xC0 (Z.shiftr r 6)))
      (String (chr (Z.lor 0x80 (Z.land r 0x3F))) EmptyString)
  else if (MaxRune <? i) || ((surrogateMin <=? i) && (i <=? surrogateMax)) then
    utf8_3 RuneError
  else if i <=? 0xFFFF then utf8_3 r
  else
    String (chr (Z.lor 0xF0 (Z.shiftr r 18)))
      (String (chr (Z.lor 0x80 (Z.land (Z.shiftr r 12) 0x3F)))
         (String (chr (Z.lor 0x80 (Z.land (Z.shiftr r 6) 0x3F)))
            (String (chr (Z.lor 0x80 (Z.land r 0x3F))) EmptyString))).

(** [string(v)] for an integer [v] ([intstring] of the Go runtime): the
    UTF-8 encoding of the code point [v], and of U+FFFD when [v] is not a
    valid code point. *)
Definition intstring (v : Z) : string :=
  let v := if int32_wrap v =? v then v else RuneError in
  encoderune v.

(** The code points [string(int)] encodes as themselves. *)
Definition validRune (v : Z) : bool :=
  (0 <=? v) && (v <=? MaxRune) && negb ((surrogateMin <=? v) && (v <=? surrogateMax)).

(** Go's [error]: [nil] or a message. *)
Definition error : Type := option string.
Definition errors_New (text : string) : error := Some text.

(** [hash.Hash] as returned by [sha256.New]: the bytes written so far.
    [Write] never returns an error. *)
Definition sha256_New : list byte := [].
Definition h_Write (h p : list byte) : list byte * (Z * error) :=
  ((h ++ p)%list, (Z.of_nat (List.length p), None)).
Definition h_Sum (h b : list byte) : list byte := (b ++ SHA256.sum h)%list.

Definition StatusOK : Z := 200.
Definition StatusCreated : Z := 201.
Definition StatusBadRequest : Z := 400.
Definition StatusNotFound : Z := 404.
Definition StatusInternalServerError : Z := 500.

Local Open Scope string_scope.

(** ** The chain engine *)

Section Chain.

(** [time.Time], its zero value [time.Time{}] and its [String] method. *)
Variable Time : Type.
Variable Time_zero : Time.
Variable Time_String : Time -> string.

(** The environment: [now k] is the value of the [k]-th call of
    [time.Now()], [os_Create k] the error of the [k]-th call of
    [os.Create(todoFile)], and [gobDecode obj] what decoding the gob
    encoding of [obj] from the file gives. *)
Variable now : nat -> Time.
Variable os_Create : nat -> error.

Record Todo : Type := mkTodo {
  Index : Z;
  Title : string;
  Notes : string;
  CreateStamp : Time;
  UpdateStamp : Time;
  CompleteStamp : Time;
  DeleteStamp : Time;
  Hash : string;
  OrigHash : string;
  PrevHash : string
}.

Variable gobDecode : list Todo -> list Todo * error.

(** The zero value [var newTodo Todo]. *)
Definition Todo_zero : Todo :=
  mkTodo 0 "" "" Time_zero Time_zero Time_zero Time_zero "" "" "".

(** Field assignments [todo.F = x]. *)
Definition set_Index (t : Todo) (x : Z) : Todo :=
  mkTodo x (Title t) (Notes t) (CreateStamp t) (UpdateStamp t)
         (CompleteStamp t) (DeleteStamp t) (Hash t) (OrigHash t) (PrevHash t).
Definition set_Title (t : Todo) (x : string) : Todo :=
  mkTodo (Index t) x (Notes t) (CreateStamp t) (UpdateStamp t)
         (CompleteStamp t) (DeleteStamp t) (Hash t) (OrigHash t) (PrevHash t).
Definition set_Notes (t : Todo) (x : string) : Todo :=
  mkTodo (Index t) (Title t) x (CreateStamp t) (UpdateStamp t)
         (CompleteStamp t) (DeleteStamp t) (Hash t) (OrigHash t) (PrevHash t).
Definition set_CreateStamp (t : Todo) (x : Time) : Todo :=
  mkTodo (Index t) (Title t) (Notes t) x (UpdateStamp t)
         (CompleteStamp t) (DeleteStamp t) (Hash t) (OrigHash t) (PrevHash t).
Definition set_UpdateStamp (t : Todo) (x : Time) : Todo :=
  mkTodo (Index t) (Title t) (Notes t) (CreateStamp t) x
         (CompleteStamp t) (DeleteStamp t) (Hash t) (OrigHash t) (PrevHash t).
Definition set_CompleteStamp (t : Todo) (x : Time) : Todo :=
  mkTodo (Index t) (Title t) (Notes t) (CreateStamp t) (UpdateStamp t)
         x (DeleteStamp t) (Hash t) (OrigHash t) (PrevHash t).
Definition set_DeleteStamp (t : Todo) (x : Time) : Todo :=
  mkTodo (Index t) (Title t) (Notes t) (CreateStamp t) (UpdateStamp t)
         (CompleteStamp t) x (Hash t) (OrigHash t) (PrevHash t).
Definition set_Hash (t : Todo) (x : string) : Todo :=
  mkTodo (Index t) (Title t) (Notes t) (CreateStamp t) (UpdateStamp t)
         (CompleteStamp t) (DeleteStamp t) x (OrigHash t) (PrevHash t).
Definition set_OrigHash (t : Todo) (x : string) : Todo :=
  mkTodo (Index t) (Title t) (Notes t) (CreateStamp t) (UpdateStamp t)
         (CompleteStamp t) (DeleteStamp t) (Hash t) x (PrevHash t).
Definition set_PrevHash (t : Todo) (x : string) : Todo :=
  mkTodo (Index t) (Title t) (Notes t) (CreateStamp t) (UpdateStamp t)
         (CompleteStamp t) (DeleteStamp t) (Hash t) (OrigHash t) x.

Record TodoDetail : Type := mkTodoDetail {
  OriginalTodo : Todo;
  Updates : list Todo
}.

Record TodoMessage : Type := mkTodoMessage {
  mTitle : string;
  mNotes : string;
  mOrigHash : string
}.

(** *** Hashing, validity and lookups *)

(** The local [hashText] of [calculateHash]. *)
Definition hashText (todo : Todo) : string :=
  intstring (Index todo) ++ Title todo ++ Notes todo
    ++ Time_String (CreateStamp todo) ++ PrevHash todo.

Definition calculateHash (todo : Todo) : string * error :=
  let h := sha256_New in
  let '(h, (_, err)) := h_Write h (list_byte_of_string (hashText todo)) in
  match err with
  | Some e => ("", Some e)
  | None =>
      let hashed := h_Sum h [] in
      (EncodeToString hashed, None)
  end.

Definition isTodoValid (newTodo oldTodo : Todo) : bool :=
  if negb (int_add (Index oldTodo) 1 =? Index newTodo)%Z then false
  else if negb (Hash oldTodo =? PrevHash newTodo) then false
  else
    let '(hash, err) := calculateHash newTodo in
    if (match err with Some _ => true | None => false end)
       || negb (hash =? Hash newTodo)
    then false
    else true.

Fixpoint chainContainsOriginalTodo (todo : Todo) (chain : list Todo) : bool :=
  match chain with
  | [] => false
  | td :: rest =>
      if Hash td =? OrigHash todo then true
      else chainContainsOriginalTodo todo rest
  end.

(** [findTodo] returns a pointer ([None] is [nil]) and an error. *)
Fixpoint findTodo (hash : string) (chain : list Todo) : option Todo * error :=
  match chain with
  | [] => (None, errors_New "original todo not found")
  | td :: rest =>
      if Hash td =? hash then (Some td, None)
      else findTodo hash rest
  end.

(** The loop of [loadTodoDetail], with [todoDetail] as accumulator. *)
Fixpoint loadTodoDetail_loop (hash : string) (chain : list Todo)
         (todoDetail : TodoDetail) : TodoDetail :=
  match chain with
  | [] => todoDetail
  | td :: rest =>
      let todoDetail :=
        if Hash td =? hash then mkTodoDetail td (Updates todoDetail)
        else todoDetail in
      let todoDetail :=
        if OrigHash td =? hash
        then mkTodoDetail (OriginalTodo todoDetail) (Updates todoDetail ++ [td])%list
        else todoDetail in
      loadTodoDetail_loop hash rest todoDetail
  end.

Definition loadTodoDetail (hash : string) (chain : list Todo)
  : option TodoDetail * error :=
  let todoDetail := loadTodoDetail_loop hash chain (mkTodoDetail Todo_zero []) in
  if Hash (OriginalTodo todoDetail) =? "" then
    (None, errors_New "original todo not found")
  else (Some todoDetail, None).

(** *** The server state and its effects *)

(** What a handler passes to [json.MarshalIndent] or writes as body; the
    JSON text itself is not modelled. *)
Inductive Payload : Type :=
| JTodo (t : Todo)
| JMessage (m : TodoMessage)
| JDetail (d : option TodoDetail)
| JChain (c : list Todo)
| JBody.

(** [http.ResponseWriter]: the status line once written, and the body. *)
Record ResponseWriter : Type := mkResponseWriter {
  status : option Z;
  body : list Payload
}.

Record World : Type := mkWorld {
  TodoChain : list Todo;          (* var TodoChain []Todo *)
  todoFile : option (list Todo);  (* the object encoded in ./todochainz.gob, if it exists *)
  ticks : nat;                    (* calls of time.Now() so far *)
  creates : nat;                  (* calls of os.Create so far *)
  w : ResponseWriter              (* the writer of the request being served *)
}.

(** A call returns, panics (net/http recovers the panic of a handler and
    drops the request) or ends the process through [log.Fatal]. *)
Inductive Outcome (A : Type) : Type :=
| Ret (a : A) (s : World)
| Panic (s : World)
| Exit (s : World).
Arguments Ret {A} a s.
Arguments Panic {A} s.
Arguments Exit {A} s.

Definition world_of {A : Type} (o : Outcome A) : World :=
  match o with Ret _ s => s | Panic s => s | Exit s => s end.

Definition M (A : Type) : Type := World -> Outcome A.

Definition ret {A : Type} (a : A) : M A := fun s => Ret a s.

Definition bind {A B : Type} (m : M A) (k : A -> M B) : M B :=
  fun s =>
    match m s with
    | Ret a s' => k a s'
    | Panic s' => Panic s'
    | Exit s' => Exit s'
    end.

Notation "x <- m ;; k" := (bind m (fun x => k))
  (at level 61, m at next level, right associativity).
Notation "m ;;; k" := (bind m (fun _ => k))
  (at level 61, right associativity).

Definition getChain : M (list Todo) := fun s => Ret (TodoChain s) s.

Definition setChain (c : list Todo) : M unit :=
  fun s => Ret tt (mkWorld c (todoFile s) (ticks s) (creates s) (w s)).

Definition time_Now : M Time :=
  fun s => Ret (now (ticks s))
               (mkWorld (TodoChain s) (todoFile s) (S (ticks s)) (creates s) (w s)).

Definition log_Fatal {A : Type} : M A := fun s => Exit s.

(** [TodoChain[len(TodoChain)-1]]: an index out of range panics. *)
Definition tipTodo : M Todo :=
  fun s =>
    match List.rev (TodoChain s) with
    | [] => Panic s
    | td :: _ => Ret td s
    end.

(** [p.F] on a pointer: a nil pointer panics. *)
Definition deref {A : Type} (p : option A) : M A :=
  fun s => match p with Some a => Ret a s | None => Panic s end.

(** [w.WriteHeader(code)]: only the first status counts. *)
Definition WriteHeader (code : Z) : M unit :=
  fun s =>
    match status (w s) with
    | Some _ => Ret tt s
    | None =>
        Ret tt (mkWorld (TodoChain s) (todoFile s) (ticks s) (creates s)
                        (mkResponseWriter (Some code) (body (w s))))
    end.

(** [w.Write(data)]: writes the status 200 first when none was written. *)
Definition Write (data : Payload) : M unit :=
  WriteHeader StatusOK ;;;
  fun s =>
    Ret tt (mkWorld (TodoChain s) (todoFile s) (ticks s) (creates s)
                    (mkResponseWriter (status (w s)) (body (w s) ++ [data])%list)).

(** [respondWithJSON]; marshalling the payloads of this program does not
    fail. *)
Definition respondWithJSON (code : Z) (payload : Payload) : M unit :=
  WriteHeader code ;;;
  Write payload.

(** [saveFile(object)]: when [os.Create] succeeds the file holds the
    encoding of [object]; the error of [os.Create] is returned. *)
Definition saveFile (object : list Todo) : M error :=
  fun s =>
    let err := os_Create (creates s) in
    let file := match err with None => Some object | Some _ => todoFile s end in
    Ret err (mkWorld (TodoChain s) file (ticks s) (S (creates s)) (w s)).

(** [loadFile(&todos)]: [os.Open] fails when the file does not exist. *)
Definition loadFile : M (list Todo * error) :=
  fun s =>
    match todoFile s with
    | None => Ret ([], errors_New "open ./todochainz.gob: no such file or directory") s
    | Some obj => Ret (gobDecode obj) s
    end.

Definition replaceChain (newTodos : list Todo) : M unit :=
  chain <- getChain ;;
  (if (List.length chain <? List.length newTodos)%nat then setChain newTodos
   else ret tt) ;;;
  chain <- getChain ;;
  err <- saveFile chain ;;
  match err with
  | Some _ => log_Fatal
  | None => ret tt
  end.

Definition generateBlock (oldTodo : Todo) (message : TodoMessage)
  : M (Todo * error) :=
  let newTodo := Todo_zero in
  t <- time_Now ;;
  let newTodo := set_Index newTodo (int_add (Index oldTodo) 1) in
  let newTodo := set_CreateStamp newTodo t in
  let newTodo := set_Title newTodo (mTitle message) in
  let newTodo := set_Notes newTodo (mNotes message) in
  let newTodo := set_PrevHash newTodo (Hash oldTodo) in
  let '(hash, err) := calculateHash newTodo in
  match err with
  | Some e => ret (newTodo, Some e)
  | None =>
      let newTodo := set_Hash newTodo hash in
      let newTodo :=
        if negb (mOrigHash message =? "")
        then set_OrigHash newTodo (mOrigHash message)
        else newTodo in
      ret (newTodo, None)
  end.

(** *** The handlers *)

(** The tail shared by the four mutating handlers (lines 259-265 of
    [handleCreateTodo] and the same lines of the three others): the
    candidate is checked against the tip, appended and saved when valid,
    and sent back with the handler's status code. The dump of the chain by
    [spew.Dump] is a log line and is left out. *)
Definition appendTodo (code : Z) (newTodo : Todo) : M unit :=
  tip <- tipTodo ;;
  (if isTodoValid newTodo tip then
     chain <- getChain ;;
     let newTodoChain := (chain ++ [newTodo])%list in
     replaceChain newTodoChain
   else ret tt) ;;;
  respondWithJSON code (JTodo newTodo).

(** The request body is given as decoded by [json.NewDecoder]: [None]
    when decoding fails. *)
Definition handleCreateTodo (decoded : option TodoMessage) : M unit :=
  match decoded with
  | None => respondWithJSON StatusBadRequest JBody
  | Some m =>
      tip <- tipTodo ;;
      r <- generateBlock tip m ;;
      let '(newTodo, err) := r in
      match err with
      | Some _ => respondWithJSON StatusInternalServerError (JMessage m)
      | None => appendTodo StatusCreated newTodo
      end
  end.

Definition handleUpdateTodo (originalHash : string) (decoded : option TodoMessage)
  : M unit :=
  match decoded with
  | None => respondWithJSON StatusBadRequest JBody
  | Some m =>
      let m := mkTodoMessage (mTitle m) (mNotes m) originalHash in
      tip <- tipTodo ;;
      r <- generateBlock tip m ;;
      let '(updateTodo, err) := r in
      match err with
      | Some _ => respondWithJSON StatusInternalServerError (JMessage m)
      | None =>
          t <- time_Now ;;
          let updateTodo := set_UpdateStamp updateTodo t in
          appendTodo StatusOK updateTodo
      end
  end.

Definition handleCompleteTodo (originalHash : string) : M unit :=
  chain <- getChain ;;
  let '(originalTodo, err) := findTodo originalHash chain in
  (match err with
   | Some _ => WriteHeader StatusNotFound
   | None => ret tt
   end) ;;;
  original <- deref originalTodo ;;
  let m := mkTodoMessage (Title original) (Notes original) originalHash in
  tip <- tipTodo ;;
  r <- generateBlock tip m ;;
  let '(completeTodo, err) := r in
  match err with
  | Some _ => respondWithJSON StatusInternalServerError (JMessage m)
  | None =>
      t <- time_Now ;;
      let completeTodo := set_DeleteStamp completeTodo (DeleteStamp original) in
      let completeTodo := set_UpdateStamp completeTodo t in
      let completeTodo := set_CompleteStamp completeTodo t in
      appendTodo StatusOK completeTodo
  end.

Definition handleDeleteTodo (originalHash : string) : M unit :=
  chain <- getChain ;;
  let '(originalTodo, err) := findTodo originalHash chain in
  (match err with
   | Some _ => WriteHeader StatusNotFound
   | None => ret tt
   end) ;;;
  original <- deref originalTodo ;;
  let m := mkTodoMessage (Title original) (Notes original) originalHash in
  tip <- tipTodo ;;
  r <- generateBlock tip m ;;
  let '(completeTodo, err) := r in
  match err with
  | Some _ => respondWithJSON StatusInternalServerError (JMessage m)
  | None =>
      t <- time_Now ;;
      let completeTodo := set_CompleteStamp completeTodo (CompleteStamp original) in
      let completeTodo := set_UpdateStamp completeTodo t in
      let completeTodo := set_DeleteStamp completeTodo t in
      appendTodo StatusOK completeTodo
  end.

Definition handleGetTodoChain : M unit :=
  chain <- getChain ;;
  Write (JChain chain).

Definition handleGetTodo (hash : string) : M unit :=
  chain <- getChain ;;
  let '(detail, err) := loadTodoDetail hash chain in
  match err with
  | Some _ => respondWithJSON StatusNotFound (JDetail detail)
  | None => respondWithJSON StatusOK (JDetail detail)
  end.

(** The routes of [makeMuxRouter] under [/api/]. *)
Inductive Request : Type :=
| GET_api
| POST_api (decoded : option TodoMessage)
| GET_hash (hash : string)
| POST_hash (hash : string)
| PUT_hash (hash : string) (decoded : option TodoMessage)
| DELETE_hash (hash : string).

Definition route (r : Request) : M unit :=
  match r with
  | GET_api => handleGetTodoChain
  | POST_api d => handleCreateTodo d
  | GET_hash h => handleGetTodo h
  | POST_hash h => handleCompleteTodo h
  | PUT_hash h d => handleUpdateTodo h d
  | DELETE_hash h => handleDeleteTodo h
  end.

(** One request, served with a fresh [ResponseWriter]. *)
Definition ServeHTTP (r : Request) : M unit :=
  fun s =>
    route r (mkWorld (TodoChain s) (todoFile s) (ticks s) (creates s)
                     (mkResponseWriter None [])).

(** Requests served one after the other; a panic ends its request only,
    [log.Fatal] ends the process. *)
Fixpoint serveAll (rs : list Request) : M unit :=
  fun s =>
    match rs with
    | [] => Ret tt s
    | r :: rest =>
        match ServeHTTP r s with
        | Ret _ s' => serveAll rest s'
        | Panic s' => serveAll rest s'
        | Exit s' => Exit s'
        end
    end.

(** The start-up goroutine of [main]. *)
Definition main : M unit :=
  fun s0 =>
    match todoFile s0 with
    | None =>
        (t <- time_Now ;;
         let genesisTodo :=
           mkTodo 0 "Genesis Todo" "Genesis Notes" t Time_zero Time_zero Time_zero
                  "" "" "" in
         let '(hash, err) := calculateHash genesisTodo in
         match err with
         | Some _ => log_Fatal
         | None =>
             let genesisTodo := set_Hash genesisTodo hash in
             chain <- getChain ;;
             setChain (chain ++ [genesisTodo])%list ;;;
             chain <- getChain ;;
             replaceChain chain
         end) s0
    | Some _ =>
        (r <- loadFile ;;
         let '(todos, err) := r in
         match err with
         | Some _ => log_Fatal
         | None => replaceChain todos
         end) s0
    end.

(** The process before [main]: no chain in memory, nothing written. *)
Definition boot (file : option (list Todo)) : World :=
  mkWorld [] file 0 0 (mkResponseWriter None []).

(** The chain in memory when the process, started without a file, has
    served the requests [rs]. *)
Definition served (rs : list Request) : list Todo :=
  TodoChain (world_of (bind main (fun _ => serveAll rs) (boot None))).

(** ** Properties *)

(** *** Strings *)

Lemma append_inv_head : forall p a b : string, p ++ a = p ++ b -> a = b.
Proof.
  induction p as [|c p IH]; simpl; intros a b H.
  - exact H.
  - injection H as H. now apply IH.
Qed.

Lemma list_ascii_of_append : forall a b : string,
  list_ascii_of_string (a ++ b)
  = (list_ascii_of_string a ++ list_ascii_of_string b)%list.
Proof.
  induction a as [|c a IH]; simpl; intros b.
  - reflexivity.
  - now rewrite IH.
Qed.

Lemma append_inv_tail : forall a b s : string, a ++ s = b ++ s -> a = b.
Proof.
  intros a b s H.
  apply (f_equal list_ascii_of_string) in H.
  rewrite !list_ascii_of_append in H.
  apply app_inv_tail in H.
  apply (f_equal string_of_list_ascii) in H.
  now rewrite !string_of_list_ascii_of_string in H.
Qed.

(** *** calculateHash *)

Lemma calculateHash_eq : forall todo,
  calculateHash todo
  = (EncodeToString (SHA256.sum (list_byte_of_string (hashText todo))), None).
Proof. reflexivity. Qed.

Lemma calculateHash_err : forall todo, snd (calculateHash todo) = None.
Proof. reflexivity. Qed.

Lemma calculateHash_pair : forall todo,
  calculateHash todo = (fst (calculateHash todo), None).
Proof. reflexivity. Qed.

Lemma calculateHash_hashText : forall a b,
  hashText a = hashText b -> calculateHash a = calculateHash b.
Proof. intros a b H. rewrite !calculateHash_eq, H. reflexivity. Qed.

Lemma hashText_set_Hash : forall t x, hashText (set_Hash t x) = hashText t.
Proof. reflexivity. Qed.

(** C5 (as amended). [calculateHash] is a function of the five fields
    [Index], [Title], [Notes], [CreateStamp] and [PrevHash] alone: two
    records that agree on them have the same digest, whatever their
    [Hash], [OrigHash], [UpdateStamp], [CompleteStamp] and [DeleteStamp];
    the digest is SHA-256 of [hashText]; and each of the five fields is
    part of that hash input: changing [Title], [Notes] or [PrevHash],
    or changing the rendering of [Index] or of [CreateStamp], changes
    [hashText]. *)
Theorem calculateHash_field_set :
  (forall i ti n c p u1 k1 d1 h1 o1 u2 k2 d2 h2 o2,
      calculateHash (mkTodo i ti n c u1 k1 d1 h1 o1 p)
      = calculateHash (mkTodo i ti n c u2 k2 d2 h2 o2 p))
  /\ (forall t,
      calculateHash t
      = (EncodeToString (SHA256.sum (list_byte_of_string (hashText t))), None))
  /\ (forall t x, intstring x <> intstring (Index t) ->
                  hashText (set_Index t x) <> hashText t)
  /\ (forall t x, x <> Title t -> hashText (set_Title t x) <> hashText t)
  /\ (forall t x, x <> Notes t -> hashText (set_Notes t x) <> hashText t)
  /\ (forall t x, Time_String x <> Time_String (CreateStamp t) ->
                  hashText (set_CreateStamp t x) <> hashText t)
  /\ (forall t x, x <> PrevHash t -> hashText (set_PrevHash t x) <> hashText t).
Proof.
  repeat split.
  - intros t x Hx H. apply Hx. unfold hashText in H; simpl in H.
    now apply append_inv_tail in H.
  - intros t x Hx H. apply Hx. unfold hashText in H; simpl in H.
    apply append_inv_head in H. now apply append_inv_tail in H.
  - intros t x Hx H. apply Hx. unfold hashText in H; simpl in H.
    do 2 apply append_inv_head in H. now apply append_inv_tail in H.
  - intros t x Hx H. apply Hx. unfold hashText in H; simpl in H.
    do 3 apply append_inv_head in H. now apply append_inv_tail in H.
  - intros t x Hx H. apply Hx. unfold hashText in H; simpl in H.
    now do 4 apply append_inv_head in H.
Qed.

(** *** string(Index) *)

Lemma intstring_invalid : forall v,
  validRune v = false -> intstring v = utf8_3 RuneError.
Proof.
  intros v Hv. unfold intstring.
  destruct (int32_wrap v =? v)%Z eqn:E32; [|reflexivity].
  apply Z.eqb_eq in E32.
  unfold validRune, MaxRune, surrogateMin, surrogateMax in Hv.
  unfold encoderune, MaxRune, surrogateMin, surrogateMax.
  unfold int32_wrap in E32.
  assert (Hr : (- 2 ^ 31 <= v < 2 ^ 31)%Z).
  { pose proof (Z.mod_pos_bound (v + 2 ^ 31) (2 ^ 32) ltac:(lia)). lia. }
  destruct (Z.ltb_spec v 0) as [Hneg|Hpos].
  - assert (Hm : (v mod 2 ^ 32 = v + 2 ^ 32)%Z).
    { symmetry. apply Z.mod_unique with (q := (-1)%Z); lia. }
    rewrite Hm.
    destruct (Z.leb_spec (v + 2 ^ 32) 0x7F); [lia|].
    destruct (Z.leb_spec (v + 2 ^ 32) 0x7FF); [lia|].
    destruct (Z.ltb_spec 0x10FFFF (v + 2 ^ 32)); [reflexivity|lia].
  - rewrite Z.mod_small by lia.
    destruct (Z.leb_spec 0 v); [|lia].
    destruct (Z.leb_spec v 0x10FFFF); simpl in Hv.
    + apply negb_false_iff in Hv. apply andb_true_iff in Hv.
      destruct Hv as [H1 H2]. rewrite H1, H2.
      apply Z.leb_le in H1, H2.
      destruct (Z.leb_spec v 0x7F); [lia|].
      destruct (Z.leb_spec v 0x7FF); [lia|].
      now rewrite orb_true_r.
    + destruct (Z.leb_spec v 0x7F); [lia|].
      destruct (Z.leb_spec v 0x7FF); [lia|].
      destruct (Z.ltb_spec 0x10FFFF v); [reflexivity|lia].
Qed.

(** C10. The text [calculateHash] hashes does not separate its fields:
    a record with title "ab" and notes "c" and the record with title "a"
    and notes "bc", equal otherwise, have the same digest; and [Index]
    enters as [string(Index)], so any two records that differ only in
    [Index] and whose indices are both invalid code points (both are
    written as U+FFFD) have the same digest, as has the record whose
    index is U+FFFD itself. *)
Theorem calculateHash_not_injective :
  (forall t,
      set_Notes (set_Title t "ab") "c" <> set_Notes (set_Title t "a") "bc"
      /\ calculateHash (set_Notes (set_Title t "ab") "c")
         = calculateHash (set_Notes (set_Title t "a") "bc"))
  /\ (forall t i j,
      validRune i = false -> validRune j = false ->
      calculateHash (set_Index t i) = calculateHash (set_Index t j)
      /\ calculateHash (set_Index t i) = calculateHash (set_Index t RuneError)).
Proof.
  split.
  - intros t. split.
    + intros H. apply (f_equal Title) in H. simpl in H. discriminate.
    + apply calculateHash_hashText. unfold hashText. simpl.
      reflexivity.
  - intros t i j Hi Hj.
    assert (He : intstring RuneError = utf8_3 RuneError) by reflexivity.
    split; apply calculateHash_hashText; unfold hashText; simpl;
      rewrite ?(intstring_invalid i Hi), ?(intstring_invalid j Hj), ?He;
      reflexivity.
Qed.

(** *** isTodoValid *)

Opaque calculateHash.

Lemma isTodoValid_eq : forall newTodo oldTodo,
  isTodoValid newTodo oldTodo
  = (int_add (Index oldTodo) 1 =? Index newTodo)%Z
    && (Hash oldTodo =? PrevHash newTodo)
    && (fst (calculateHash newTodo) =? Hash newTodo).
Proof.
  intros n o. unfold isTodoValid.
  destruct (int_add (Index o) 1 =? Index n)%Z; simpl; [|reflexivity].
  destruct (Hash o =? PrevHash n); simpl; [|reflexivity].
  rewrite (calculateHash_pair n). simpl.
  now destruct (fst (calculateHash n) =? Hash n).
Qed.

Lemma isTodoValid_iff : forall newTodo oldTodo,
  isTodoValid newTodo oldTodo = true
  <-> Index newTodo = int_add (Index oldTodo) 1
      /\ PrevHash newTodo = Hash oldTodo
      /\ Hash newTodo = fst (calculateHash newTodo).
Proof.
  intros n o. rewrite isTodoValid_eq. split.
  - intros H. apply andb_true_iff in H. destruct H as [H H3].
    apply andb_true_iff in H. destruct H as [H1 H2].
    apply Z.eqb_eq in H1. apply String.eqb_eq in H2, H3.
    repeat split; congruence.
  - intros (H1 & H2 & H3).
    rewrite <- H1, <- H3, H2, Z.eqb_refl, !String.eqb_refl. reflexivity.
Qed.


(** *** generateBlock *)

Definition tick (s : World) : World :=
  mkWorld (TodoChain s) (todoFile s) (S (ticks s)) (creates s) (w s).

(** The record [generateBlock] returns, written out. *)
Lemma generateBlock_eq : forall oldTodo message s,
  generateBlock oldTodo message s
  = Ret (mkTodo (int_add (Index oldTodo) 1) (mTitle message) (mNotes message)
                (now (ticks s)) Time_zero Time_zero Time_zero
                (fst (calculateHash
                        (mkTodo (int_add (Index oldTodo) 1) (mTitle message)
                                (mNotes message) (now (ticks s)) Time_zero
                                Time_zero Time_zero "" "" (Hash oldTodo))))
                (mOrigHash message) (Hash oldTodo), None)
        (tick s).
Proof.
  intros o m s. unfold generateBlock, bind, time_Now, ret, tick.
  rewrite (calculateHash_pair _).
  destruct (mOrigHash m =? "") eqn:E; simpl.
  - apply String.eqb_eq in E. unfold set_Hash; simpl. now rewrite E.
  - reflexivity.
Qed.

(** C8. Whatever the tip and the message, [generateBlock] returns,
    without error, a record whose [Index] is the tip's plus one, whose
    [PrevHash] is the tip's [Hash], and whose [Hash] is [calculateHash]
    of the record returned. *)
Theorem generateBlock_links_to_tip : forall oldTodo message s,
  exists newTodo s',
    generateBlock oldTodo message s = Ret (newTodo, None) s'
    /\ Index newTodo = int_add (Index oldTodo) 1
    /\ PrevHash newTodo = Hash oldTodo
    /\ calculateHash newTodo = (Hash newTodo, None).
Proof.
  intros o m s. rewrite generateBlock_eq.
  eexists. eexists. split; [reflexivity|].
  simpl. repeat split.
Qed.

(** *** replaceChain *)

Lemma replaceChain_eq : forall newTodos s,
  replaceChain newTodos s
  = let chain := if (List.length (TodoChain s) <? List.length newTodos)%nat
                 then newTodos else TodoChain s in
    let s' := mkWorld chain
                      (match os_Create (creates s) with
                       | None => Some chain
                       | Some _ => todoFile s
                       end)
                      (ticks s) (S (creates s)) (w s) in
    match os_Create (creates s) with
    | None => Ret tt s'
    | Some _ => Exit s'
    end.
Proof.
  intros n s. unfold replaceChain, bind, getChain, setChain, saveFile, ret, log_Fatal.
  destruct (List.length (TodoChain s) <? List.length n)%nat; simpl;
    destruct (os_Create (creates s)); reflexivity.
Qed.

(** C3. [replaceChain] installs the candidate when it is strictly longer
    than the chain in memory, and only then: after the call the chain in
    memory is the candidate if it is longer, and is the chain as it was if
    the candidate is shorter or of equal length. *)
Theorem replaceChain_longest_wins : forall newTodos s,
  ((List.length (TodoChain s) < List.length newTodos)%nat ->
   TodoChain (world_of (replaceChain newTodos s)) = newTodos)
  /\ ((List.length newTodos <= List.length (TodoChain s))%nat ->
      TodoChain (world_of (replaceChain newTodos s)) = TodoChain s).
Proof.
  intros n s. rewrite replaceChain_eq. cbv zeta.
  split; intros H.
  - apply Nat.ltb_lt in H. rewrite H.
    destruct (os_Create (creates s)); reflexivity.
  - apply Nat.ltb_ge in H. rewrite H.
    destruct (os_Create (creates s)); reflexivity.
Qed.

(** *** loadTodoDetail *)

Lemma find_snoc : forall (f : Todo -> bool) l x,
  find f (l ++ [x])%list
  = match find f l with
    | Some y => Some y
    | None => if f x then Some x else None
    end.
Proof.
  induction l as [|a l IH]; simpl; intros x.
  - reflexivity.
  - destruct (f a); [reflexivity|apply IH].
Qed.

(** The loop keeps the last record whose [Hash] matches and collects, in
    chain order, the records whose [OrigHash] matches. *)
Lemma loadTodoDetail_loop_eq : forall hash chain d,
  loadTodoDetail_loop hash chain d
  = mkTodoDetail
      (match find (fun td => Hash td =? hash) (List.rev chain) with
       | Some o => o
       | None => OriginalTodo d
       end)
      (Updates d ++ filter (fun td => OrigHash td =? hash) chain)%list.
Proof.
  intros hash chain. induction chain as [|td rest IH]; intros d.
  - simpl. rewrite app_nil_r. now destruct d.
  - cbn [loadTodoDetail_loop]. rewrite IH. cbn [List.rev filter].
    rewrite find_snoc.
    destruct (find (fun td0 => Hash td0 =? hash) (List.rev rest)) as [o|];
      destruct (Hash td =? hash); destruct (OrigHash td =? hash);
      cbn [OriginalTodo Updates]; rewrite <- ?app_assoc; reflexivity.
Qed.

Lemma find_rev_none : forall (f : Todo -> bool) chain,
  find f (List.rev chain) = None <-> forall td, In td chain -> f td = false.
Proof.
  intros f chain. split.
  - intros H td Hin. apply (find_none _ _ H). now apply in_rev in Hin.
  - intros H. destruct (find f (List.rev chain)) as [o|] eqn:E; [|reflexivity].
    apply find_some in E. destruct E as [Hin Hf].
    apply in_rev in Hin. rewrite (H o Hin) in Hf. discriminate.
Qed.

(** [loadTodoDetail] on any chain and query, with its sentinel written
    out: an [OriginalTodo] with an empty [Hash] stands for "no match". *)
Lemma loadTodoDetail_sentinel : forall hash chain,
  (loadTodoDetail hash chain = (None, errors_New "original todo not found")
   <-> hash = "" \/ forall td, In td chain -> Hash td <> hash)
  /\ (hash <> "" ->
      (exists td, In td chain /\ Hash td = hash) ->
      exists original,
        loadTodoDetail hash chain
        = (Some (mkTodoDetail original
                   (filter (fun td => OrigHash td =? hash) chain)), None)
        /\ find (fun td => Hash td =? hash) (List.rev chain) = Some original
        /\ In original chain
        /\ Hash original = hash).
Proof.
  intros hash chain. unfold loadTodoDetail.
  rewrite loadTodoDetail_loop_eq. cbn [OriginalTodo Updates app].
  destruct (find (fun td => Hash td =? hash) (List.rev chain)) as [o|] eqn:E.
  - pose proof (find_some _ _ E) as [Hin Ho].
    apply in_rev in Hin. apply String.eqb_eq in Ho.
    split.
    + split.
      * destruct (Hash o =? "") eqn:Ee; [|discriminate].
        intros _. left. apply String.eqb_eq in Ee. congruence.
      * intros [H|H].
        -- subst hash. rewrite H, String.eqb_refl. reflexivity.
        -- exfalso. exact (H o Hin Ho).
    + intros Hne _. exists o.
      destruct (Hash o =? "") eqn:Ee.
      * apply String.eqb_eq in Ee. congruence.
      * auto.
  - split.
    + split; [|reflexivity].
      intros _. right. intros td Hin Heq.
      pose proof (proj1 (find_rev_none _ chain) E td Hin) as Hf.
      simpl in Hf. apply String.eqb_neq in Hf. contradiction.
    + intros _ [td [Hin Heq]]. exfalso.
      pose proof (proj1 (find_rev_none _ chain) E td Hin) as Hf.
      simpl in Hf. apply String.eqb_neq in Hf. contradiction.
Qed.

(** C9. Take any chain and any query such that the query is not the
    empty string (the route [/api/{hash}] binds no empty hash) or no
    record of the chain has an empty [Hash] (no record the program builds
    has one). Then [loadTodoDetail] reports "original todo not found"
    exactly when no record of the chain has the query as [Hash]; and when
    some record has, it returns without error that record (the last one,
    should several carry the hash) as [OriginalTodo], together with
    exactly the records whose [OrigHash] is the query, in chain order, as
    [Updates]. *)
Theorem loadTodoDetail_found_iff : forall hash chain,
  hash <> "" \/ (forall td, In td chain -> Hash td <> "") ->
  (loadTodoDetail hash chain = (None, errors_New "original todo not found")
   <-> forall td, In td chain -> Hash td <> hash)
  /\ ((exists td, In td chain /\ Hash td = hash) ->
      exists original,
        loadTodoDetail hash chain
        = (Some (mkTodoDetail original
                   (filter (fun td => OrigHash td =? hash) chain)), None)
        /\ find (fun td => Hash td =? hash) (List.rev chain) = Some original
        /\ In original chain
        /\ Hash original = hash).
Proof.
  intros hash chain Hpre.
  destruct (loadTodoDetail_sentinel hash chain) as [Hiff Hfound].
  assert (Hne : (exists td, In td chain /\ Hash td = hash) -> hash <> "").
  { intros (td & Hin & Hh) E. destruct Hpre as [Hq|Hc].
    - exact (Hq E).
    - apply (Hc td Hin). congruence. }
  split.
  - split.
    + intros Herr. apply Hiff in Herr. destruct Herr as [E|Hnone].
      * intros td Hin Hh. apply (Hne (ex_intro _ td (conj Hin Hh))). exact E.
      * exact Hnone.
    + intros Hnone. apply Hiff. right. exact Hnone.
  - intros Hex. exact (Hfound (Hne Hex) Hex).
Qed.

(** *** The tail of the mutating handlers *)

(** The writer after [respondWithJSON code payload]. *)
Definition responded (code : Z) (payload : Payload) (rw : ResponseWriter)
  : ResponseWriter :=
  mkResponseWriter
    (Some (match status rw with Some c => c | None => code end))
    (body rw ++ [payload])%list.

Lemma respondWithJSON_eq : forall code payload s,
  respondWithJSON code payload s
  = Ret tt (mkWorld (TodoChain s) (todoFile s) (ticks s) (creates s)
                    (responded code payload (w s))).
Proof.
  intros code payload s.
  unfold respondWithJSON, Write, WriteHeader, bind, responded.
  destruct (status (w s)) eqn:E; simpl; rewrite ?E; reflexivity.
Qed.

Lemma appendTodo_eq : forall code newTodo s,
  appendTodo code newTodo s
  = match List.rev (TodoChain s) with
    | [] => Panic s
    | tip :: _ =>
        if isTodoValid newTodo tip then
          bind (replaceChain (TodoChain s ++ [newTodo])%list)
               (fun _ => respondWithJSON code (JTodo newTodo)) s
        else respondWithJSON code (JTodo newTodo) s
    end.
Proof.
  intros code newTodo s. unfold appendTodo, bind at 1, tipTodo.
  destruct (List.rev (TodoChain s)) as [|tip r]; [reflexivity|].
  destruct (isTodoValid newTodo tip); reflexivity.
Qed.

(** C6 (as amended). When the candidate is not valid against the tip,
    the tail of the handlers leaves the chain in memory and the file
    untouched, makes no attempt to save, and returns normally having sent
    the candidate back with the handler's usual status code. What is
    written to the caller is a function of the status code and of the
    candidate alone: it is the same whether the candidate was appended or
    rejected. *)
Theorem appendTodo_rejected_silently : forall code newTodo s tip,
  tipTodo s = Ret tip s ->
  isTodoValid newTodo tip = false ->
  exists s',
    appendTodo code newTodo s = Ret tt s'
    /\ TodoChain s' = TodoChain s
    /\ todoFile s' = todoFile s
    /\ creates s' = creates s
    /\ w s' = responded code (JTodo newTodo) (w s)
    /\ (forall s2 s2', w s2 = w s ->
                       appendTodo code newTodo s2 = Ret tt s2' ->
                       w s2' = w s').
Proof.
  intros code newTodo s tip Htip Hbad.
  rewrite appendTodo_eq. unfold tipTodo in Htip.
  destruct (List.rev (TodoChain s)) as [|tip0 r]; [discriminate|].
  injection Htip as ->. rewrite Hbad, respondWithJSON_eq.
  eexists. split; [reflexivity|]. cbn [TodoChain todoFile creates w].
  repeat split.
  intros s2 s2' Hw H2. rewrite appendTodo_eq in H2.
  destruct (List.rev (TodoChain s2)) as [|tip2 r2]; [discriminate|].
  destruct (isTodoValid newTodo tip2).
  - unfold bind in H2. rewrite replaceChain_eq in H2. cbv zeta in H2.
    destruct (os_Create (creates s2)); [discriminate|].
    rewrite respondWithJSON_eq in H2. injection H2 as <-.
    cbn [w]. now rewrite Hw.
  - rewrite respondWithJSON_eq in H2. injection H2 as <-.
    cbn [w]. now rewrite Hw.
Qed.

(** *** The chain invariants *)


(** Each record continues its predecessor. *)
Fixpoint chain_linked (chain : list Todo) : Prop :=
  match chain with
  | a :: rest =>
      match rest with
      | b :: _ => Index b = int_add (Index a) 1 /\ PrevHash b = Hash a
      | [] => True
      end /\ chain_linked rest
  | [] => True
  end.

(** The chain starts with a record of index 0, is linked, and every
    record carries its own digest. *)
Definition chain_ok (chain : list Todo) : Prop :=
  (exists g rest, chain = g :: rest /\ Index g = 0%Z)
  /\ chain_linked chain
  /\ Forall (fun td => calculateHash td = (Hash td, None)) chain.

Lemma chain_linked_snoc : forall chain tip newTodo,
  chain_linked (chain ++ [tip]) ->
  Index newTodo = int_add (Index tip) 1 ->
  PrevHash newTodo = Hash tip ->
  chain_linked ((chain ++ [tip]) ++ [newTodo]).
Proof.
  induction chain as [|a chain IH]; intros tip c Hl Hi Hp.
  - simpl. auto.
  - cbn [app chain_linked] in *. destruct Hl as [Hhd Htl]. split.
    + destruct chain; exact Hhd.
    + now apply IH.
Qed.

Lemma chain_ok_snoc : forall chain tip r newTodo,
  chain_ok chain ->
  List.rev chain = tip :: r ->
  isTodoValid newTodo tip = true ->
  chain_ok (chain ++ [newTodo]).
Proof.
  intros chain tip r c (Hg & Hl & Hh) Hrev Hv.
  apply isTodoValid_iff in Hv. destruct Hv as (Hi & Hp & Hc).
  assert (Hch : chain = (List.rev r ++ [tip])%list).
  { rewrite <- (rev_involutive chain), Hrev. reflexivity. }
  repeat split.
  - destruct Hg as (g & rest & -> & Hg0). exists g, (rest ++ [c])%list. auto.
  - rewrite Hch in *. now apply chain_linked_snoc.
  - apply Forall_app. split; [exact Hh|].
    constructor; [|constructor].
    rewrite (calculateHash_pair c). now rewrite <- Hc.
Qed.

(** A computation keeps [chain_ok] when the chain it leaves in memory,
    however it ends, is [chain_ok] if the chain it started from was. *)
Definition keeps {A : Type} (m : M A) : Prop :=
  forall s, chain_ok (TodoChain s) -> chain_ok (TodoChain (world_of (m s))).

Lemma keeps_bind : forall (A B : Type) (m : M A) (k : A -> M B),
  keeps m -> (forall a, keeps (k a)) -> keeps (bind m k).
Proof.
  intros A B m k Hm Hk s Hs. unfold bind.
  specialize (Hm s Hs). destruct (m s) as [a s'|s'|s']; simpl in *.
  - now apply Hk.
  - exact Hm.
  - exact Hm.
Qed.

Lemma keeps_frame : forall (A : Type) (m : M A),
  (forall s, TodoChain (world_of (m s)) = TodoChain s) -> keeps m.
Proof. intros A m H s Hs. now rewrite H. Qed.

Lemma keeps_ret : forall (A : Type) (a : A), keeps (ret a).
Proof. intros. now apply keeps_frame. Qed.

Lemma keeps_getChain : keeps getChain.
Proof. now apply keeps_frame. Qed.

Lemma keeps_time_Now : keeps time_Now.
Proof. now apply keeps_frame. Qed.

Lemma keeps_tipTodo : keeps tipTodo.
Proof.
  apply keeps_frame. intros s. unfold tipTodo.
  now destruct (List.rev (TodoChain s)).
Qed.

Lemma keeps_deref : forall (A : Type) (p : option A), keeps (deref p).
Proof. intros A p. apply keeps_frame. intros s. now destruct p. Qed.

Lemma keeps_WriteHeader : forall code, keeps (WriteHeader code).
Proof.
  intros code. apply keeps_frame. intros s. unfold WriteHeader.
  now destruct (status (w s)).
Qed.

Lemma keeps_respondWithJSON : forall code payload,
  keeps (respondWithJSON code payload).
Proof.
  intros. apply keeps_frame. intros s. now rewrite respondWithJSON_eq.
Qed.

Lemma keeps_Write : forall data, keeps (Write data).
Proof.
  intros data. unfold Write. apply keeps_bind.
  - apply keeps_WriteHeader.
  - intros _. now apply keeps_frame.
Qed.

Lemma keeps_generateBlock : forall oldTodo message,
  keeps (generateBlock oldTodo message).
Proof.
  intros. apply keeps_frame. intros s. now rewrite generateBlock_eq.
Qed.

Lemma keeps_appendTodo : forall code newTodo, keeps (appendTodo code newTodo).
Proof.
  intros code c s Hs. rewrite appendTodo_eq.
  destruct (List.rev (TodoChain s)) as [|tip r] eqn:Hrev; [exact Hs|].
  destruct (isTodoValid c tip) eqn:Hv.
  - unfold bind. rewrite replaceChain_eq. cbv zeta.
    rewrite length_app, Nat.add_comm. cbn [List.length Nat.add].
    replace (List.length (TodoChain s) <? S (List.length (TodoChain s)))%nat
      with true by (symmetry; apply Nat.ltb_lt; lia).
    destruct (os_Create (creates s)).
    + simpl. eapply chain_ok_snoc; eauto.
    + rewrite respondWithJSON_eq. simpl. eapply chain_ok_snoc; eauto.
  - rewrite respondWithJSON_eq. exact Hs.
Qed.

Create HintDb keeps.
#[local] Hint Resolve keeps_ret keeps_getChain keeps_time_Now keeps_tipTodo
     keeps_deref keeps_WriteHeader keeps_respondWithJSON keeps_Write
     keeps_generateBlock keeps_appendTodo : keeps.

Ltac keeps_step :=
  match goal with
  | |- keeps (bind _ _) => apply keeps_bind; [|intros]
  | |- keeps (match ?x with Some _ => _ | None => _ end) => destruct x
  | |- keeps (let '(_, _) := ?x in _) => destruct x
  | |- keeps _ => solve [auto with keeps]
  end.

Lemma keeps_route : forall r, keeps (route r).
Proof.
  intros [|d|h|h|h d|h]; cbn [route].
  - unfold handleGetTodoChain. repeat keeps_step.
  - unfold handleCreateTodo. repeat keeps_step.
  - unfold handleGetTodo. repeat keeps_step.
  - unfold handleCompleteTodo. repeat keeps_step.
  - unfold handleUpdateTodo. repeat keeps_step.
  - unfold handleDeleteTodo. repeat keeps_step.
Qed.

Lemma keeps_ServeHTTP : forall r, keeps (ServeHTTP r).
Proof. intros r s Hs. unfold ServeHTTP. now apply (keeps_route r). Qed.

Lemma keeps_serveAll : forall rs, keeps (serveAll rs).
Proof.
  induction rs as [|r rs IH]; intros s Hs; cbn [serveAll].
  - exact Hs.
  - pose proof (keeps_ServeHTTP r s Hs) as Hr.
    destruct (ServeHTTP r s) as [[] s'|s'|s']; simpl in Hr.
    + now apply IH.
    + now apply IH.
    + exact Hr.
Qed.

(** The first start, with no file: the chain holds the genesis record. *)
Lemma main_fresh : chain_ok (TodoChain (world_of (main (boot None)))).
Proof.
  unfold main, boot. cbn [todoFile].
  unfold bind at 1, time_Now. cbn [ticks TodoChain todoFile creates w].
  rewrite (calculateHash_pair _).
  unfold bind, getChain, setChain. cbn [TodoChain todoFile creates w ticks app].
  rewrite replaceChain_eq. cbv zeta. cbn [TodoChain List.length].
  rewrite Nat.ltb_irrefl.
  assert (Hok : chain_ok
    [set_Hash (mkTodo 0 "Genesis Todo" "Genesis Notes" (now 0) Time_zero
                      Time_zero Time_zero "" "" "")
              (fst (calculateHash
                      (mkTodo 0 "Genesis Todo" "Genesis Notes" (now 0) Time_zero
                              Time_zero Time_zero "" "" "")))]).
  { repeat split.
    - eexists. eexists. split; reflexivity.
    - constructor; [|constructor].
      rewrite (calculateHash_hashText _ _ (hashText_set_Hash _ _)).
      apply calculateHash_pair. }
  destruct (os_Create (creates _)); exact Hok.
Qed.




(** ** Further properties of the chain engine *)

(** *** findTodo and chainContainsOriginalTodo *)

(** X1. [findTodo] scans from the front: it returns the first record whose
    [Hash] is the query, with a nil error, and returns a nil pointer with
    the error "original todo not found" exactly when no record of the
    chain has that [Hash]. *)
Theorem findTodo_first_match : forall hash chain,
  (findTodo hash chain = (None, errors_New "original todo not found")
   /\ forall td, In td chain -> Hash td <> hash)
  \/ (exists pre td post,
         chain = (pre ++ td :: post)%list
         /\ Hash td = hash
         /\ (forall x, In x pre -> Hash x <> hash)
         /\ findTodo hash chain = (Some td, None)).
Proof.
  intros hash chain. induction chain as [|a chain IH].
  - left. split; [reflexivity|]. intros td [].
  - cbn [findTodo]. destruct (Hash a =? hash) eqn:E.
    + right. exists [], a, chain. apply String.eqb_eq in E.
      split; [reflexivity|]. split; [exact E|].
      split; [intros x []|reflexivity].
    + apply String.eqb_neq in E. destruct IH as [[Hf Hn]|(pre & td & post & Hc & Hh & Hp & Hf)].
      * left. split; [exact Hf|]. intros td [<-|Hin]; auto.
      * right. exists (a :: pre), td, post. subst chain.
        split; [reflexivity|]. split; [exact Hh|].
        split; [intros x [<-|Hin]; auto|exact Hf].
Qed.

(** X2. [chainContainsOriginalTodo] is true exactly when some record of
    the chain has the [OrigHash] of the given record as its [Hash], which
    is exactly when [findTodo] on that [OrigHash] returns no error. *)
Theorem chainContainsOriginalTodo_iff : forall todo chain,
  (chainContainsOriginalTodo todo chain = true
   <-> exists td, In td chain /\ Hash td = OrigHash todo)
  /\ (chainContainsOriginalTodo todo chain = true
      <-> snd (findTodo (OrigHash todo) chain) = None).
Proof.
  intros todo chain. induction chain as [|a chain [IH1 IH2]].
  - split; split; try discriminate. intros (td & [] & _).
  - cbn [chainContainsOriginalTodo findTodo].
    destruct (Hash a =? OrigHash todo) eqn:E.
    + apply String.eqb_eq in E. split; split; auto.
      intros _. exists a. split; [left; reflexivity|exact E].
    + apply String.eqb_neq in E. split; [|exact IH2].
      rewrite IH1. split.
      * intros (td & Hin & Hh). exists td. split; [right; exact Hin|exact Hh].
      * intros (td & [<-|Hin] & Hh); [contradiction|]. exists td. auto.
Qed.

Lemma findTodo_result : forall hash chain,
  (exists td, findTodo hash chain = (Some td, None)
              /\ In td chain /\ Hash td = hash)
  \/ (findTodo hash chain = (None, errors_New "original todo not found")
      /\ forall td, In td chain -> Hash td <> hash).
Proof.
  intros hash chain. induction chain as [|a chain IH]; cbn [findTodo].
  - right. split; [reflexivity|]. intros td [].
  - destruct (Hash a =? hash) eqn:E.
    + left. exists a. apply String.eqb_eq in E.
      split; [reflexivity|]. split; [left; reflexivity|exact E].
    + apply String.eqb_neq in E.
      destruct IH as [(td & Hf & Hin & Hh)|[Hf Hn]].
      * left. exists td. split; [exact Hf|]. split; [right; exact Hin|exact Hh].
      * right. split; [exact Hf|]. intros td [<-|Hin]; auto.
Qed.

(** X3. For a non-empty query, [findTodo] and [loadTodoDetail] give the
    same verdict (the same error, or none). [findTodo] returns the first
    match and [loadTodoDetail] the last one as the original, so they name
    the same record when at most one record carries the query as [Hash]. *)
Theorem findTodo_loadTodoDetail_agree : forall hash chain,
  hash <> "" ->
  snd (findTodo hash chain) = snd (loadTodoDetail hash chain)
  /\ (forall td d,
         findTodo hash chain = (Some td, None) ->
         loadTodoDetail hash chain = (Some d, None) ->
         (forall a b, In a chain -> In b chain ->
                      Hash a = hash -> Hash b = hash -> a = b) ->
         OriginalTodo d = td).
Proof.
  intros hash chain Hne.
  unfold loadTodoDetail. rewrite loadTodoDetail_loop_eq.
  cbn [OriginalTodo Updates app].
  destruct (findTodo_result hash chain) as [(td & Hf & Hin & Hh)|[Hf Hn]].
  - rewrite Hf.
    destruct (find (fun td => Hash td =? hash) (List.rev chain)) as [o|] eqn:E.
    + pose proof (find_some _ _ E) as [Hoin Ho].
      apply in_rev in Hoin. apply String.eqb_eq in Ho.
      destruct (Hash o =? "") eqn:Ee.
      { apply String.eqb_eq in Ee. congruence. }
      split; [reflexivity|].
      intros td' d H1 H2 Hu. injection H1 as <-. injection H2 as <-.
      cbn [OriginalTodo]. now apply Hu.
    + exfalso. pose proof (proj1 (find_rev_none _ chain) E td Hin) as Hx.
      cbv beta in Hx. rewrite Hh, String.eqb_refl in Hx. discriminate Hx.
  - rewrite Hf.
    assert (E : find (fun td => Hash td =? hash) (List.rev chain) = None).
    { apply find_rev_none. intros td Hin. apply String.eqb_neq. auto. }
    rewrite E. cbn. split; [reflexivity|]. intros td d H. discriminate H.
Qed.

(** *** The digest *)

Lemma be_bytes_length : forall n x, List.length (SHA256.be_bytes n x) = n.
Proof. induction n as [|n IH]; intros x; simpl; [reflexivity|now rewrite IH]. Qed.

Lemma compress_length : forall h block,
  List.length h = 8%nat -> List.length (SHA256.compress h block) = 8%nat.
Proof.
  intros h block Hh. unfold SHA256.compress.
  rewrite length_map, length_combine, Hh. reflexivity.
Qed.

Lemma blocks_length : forall n h bs,
  List.length h = 8%nat -> List.length (SHA256.blocks n h bs) = 8%nat.
Proof.
  induction n as [|n IH]; intros h bs Hh; cbn [SHA256.blocks].
  - exact Hh.
  - apply IH. now apply compress_length.
Qed.

Lemma flat_be_bytes_length : forall l,
  List.length (flat_map (SHA256.be_bytes 4) l) = (4 * List.length l)%nat.
Proof.
  induction l as [|a l IH]; [reflexivity|].
  cbn [flat_map]. rewrite length_app, be_bytes_length, IH. cbn [List.length]. lia.
Qed.

Lemma sum_length : forall msg, List.length (SHA256.sum msg) = 32%nat.
Proof.
  intros msg. unfold SHA256.sum, SHA256.digest.
  rewrite length_map, flat_be_bytes_length, blocks_length; [reflexivity|].
  unfold SHA256.H0. rewrite length_map. reflexivity.
Qed.

(** The characters [hex.EncodeToString] writes. *)
Definition lower_hex (c : ascii) : bool :=
  let n := N_of_ascii c in
  ((48 <=? n) && (n <=? 57) || (97 <=? n) && (n <=? 102))%N.

Lemma EncodeToString_length : forall bs,
  String.length (EncodeToString bs) = (2 * List.length bs)%nat.
Proof.
  induction bs as [|b bs IH]; [reflexivity|].
  cbn [EncodeToString String.length List.length]. rewrite IH. lia.
Qed.

Lemma EncodeToString_hex : forall bs,
  forallb lower_hex (list_ascii_of_string (EncodeToString bs)) = true.
Proof.
  induction bs as [|b bs IH]; [reflexivity|].
  cbn [EncodeToString list_ascii_of_string forallb]. rewrite IH.
  destruct b; reflexivity.
Qed.

(** X4. Whatever the record, [calculateHash] returns, with a nil error, a
    string of 64 lower-case hexadecimal digits; in particular the digest
    is never the empty string. *)
Theorem calculateHash_hex64 : forall todo,
  snd (calculateHash todo) = None
  /\ String.length (fst (calculateHash todo)) = 64%nat
  /\ forallb lower_hex (list_ascii_of_string (fst (calculateHash todo))) = true
  /\ fst (calculateHash todo) <> "".
Proof.
  intros todo. rewrite calculateHash_eq. cbn [fst snd].
  assert (Hl : String.length
                 (EncodeToString (SHA256.sum (list_byte_of_string (hashText todo))))
               = 64%nat).
  { rewrite EncodeToString_length, sum_length. reflexivity. }
  split; [reflexivity|]. split; [exact Hl|]. split.
  - apply EncodeToString_hex.
  - intros E. rewrite E in Hl. discriminate Hl.
Qed.

(** *** Building and committing a record *)

(** The record [generateBlock] builds from the tip, the message and the
    clock reading [t]. *)
Definition built (oldTodo : Todo) (message : TodoMessage) (t : Time) : Todo :=
  mkTodo (int_add (Index oldTodo) 1) (mTitle message) (mNotes message)
         t Time_zero Time_zero Time_zero
         (fst (calculateHash
                 (mkTodo (int_add (Index oldTodo) 1) (mTitle message)
                         (mNotes message) t Time_zero Time_zero Time_zero
                         "" "" (Hash oldTodo))))
         (mOrigHash message) (Hash oldTodo).

Lemma generateBlock_built : forall oldTodo message s,
  generateBlock oldTodo message s
  = Ret (built oldTodo message (now (ticks s)), None) (tick s).
Proof. intros. apply generateBlock_eq. Qed.

(** Validity does not read the three optional stamps nor [OrigHash]. *)
Lemma isTodoValid_stamps : forall i ti n c h p u1 k1 d1 o1 u2 k2 d2 o2 oldTodo,
  isTodoValid (mkTodo i ti n c u1 k1 d1 h o1 p) oldTodo
  = isTodoValid (mkTodo i ti n c u2 k2 d2 h o2 p) oldTodo.
Proof.
  intros. rewrite !isTodoValid_eq. cbn [Index Hash PrevHash].
  rewrite (calculateHash_hashText
             (mkTodo i ti n c u1 k1 d1 h o1 p) (mkTodo i ti n c u2 k2 d2 h o2 p));
    reflexivity.
Qed.

Lemma built_valid : forall oldTodo message t,
  isTodoValid (built oldTodo message t) oldTodo = true.
Proof.
  intros o m t. apply isTodoValid_iff. unfold built. cbn [Index Hash PrevHash].
  split; [reflexivity|]. split; [reflexivity|].
  apply (f_equal fst). apply calculateHash_hashText. reflexivity.
Qed.

(** X5. Whatever the tip and the message, the record [generateBlock]
    returns is valid against the tip, and stays valid when a handler then
    sets its optional stamps. It carries the title, the notes and the
    [OrigHash] of the message, the clock reading as [CreateStamp] and zero
    optional stamps, and one reading of the clock is consumed. *)
Theorem generateBlock_valid : forall oldTodo message s,
  exists newTodo s',
    generateBlock oldTodo message s = Ret (newTodo, None) s'
    /\ isTodoValid newTodo oldTodo = true
    /\ (forall u c d,
           isTodoValid
             (set_DeleteStamp (set_CompleteStamp (set_UpdateStamp newTodo u) c) d)
             oldTodo = true)
    /\ Title newTodo = mTitle message
    /\ Notes newTodo = mNotes message
    /\ OrigHash newTodo = mOrigHash message
    /\ CreateStamp newTodo = now (ticks s)
    /\ UpdateStamp newTodo = Time_zero
    /\ CompleteStamp newTodo = Time_zero
    /\ DeleteStamp newTodo = Time_zero
    /\ ticks s' = S (ticks s)
    /\ TodoChain s' = TodoChain s
    /\ todoFile s' = todoFile s.
Proof.
  intros o m s. rewrite generateBlock_built.
  eexists. eexists. split; [reflexivity|].
  split; [apply built_valid|]. split.
  - intros u c d. unfold set_DeleteStamp, set_CompleteStamp, set_UpdateStamp, built.
    cbn [Index Title Notes CreateStamp UpdateStamp CompleteStamp DeleteStamp
         Hash OrigHash PrevHash].
    rewrite <- (built_valid o m (now (ticks s))). unfold built.
    apply isTodoValid_stamps.
  - repeat split.
Qed.


(** What committing a valid candidate [c] comes to: the chain with [c]
    appended is installed and saved, and [c] is sent with the status
    [code]; or the save fails and the process ends. *)
Definition committed (code : Z) (c : Todo) (s : World) : Outcome unit :=
  match os_Create (creates s) with
  | None =>
      Ret tt (mkWorld (TodoChain s ++ [c])%list (Some (TodoChain s ++ [c])%list)
                      (ticks s) (S (creates s))
                      (responded code (JTodo c) (w s)))
  | Some _ =>
      Exit (mkWorld (TodoChain s ++ [c])%list (todoFile s)
                    (ticks s) (S (creates s)) (w s))
  end.

Lemma appendTodo_valid : forall code c s tip r,
  List.rev (TodoChain s) = tip :: r ->
  isTodoValid c tip = true ->
  appendTodo code c s = committed code c s.
Proof.
  intros code c s tip r Hrev Hv. rewrite appendTodo_eq, Hrev, Hv.
  unfold bind, committed. rewrite replaceChain_eq. cbv zeta.
  rewrite length_app, Nat.add_comm. cbn [List.length Nat.add].
  replace (List.length (TodoChain s) <? S (List.length (TodoChain s)))%nat
    with true by (symmetry; apply Nat.ltb_lt; lia).
  destruct (os_Create (creates s)); [reflexivity|].
  rewrite respondWithJSON_eq. reflexivity.
Qed.

Lemma tipTodo_rev : forall s tip,
  tipTodo s = Ret tip s -> exists r, List.rev (TodoChain s) = tip :: r.
Proof.
  intros s tip H. unfold tipTodo in H.
  destruct (List.rev (TodoChain s)) as [|t r]; [discriminate|].
  injection H as ->. now exists r.
Qed.

Lemma tipTodo_tick : forall s tip,
  tipTodo s = Ret tip s -> tipTodo (tick s) = Ret tip (tick s).
Proof.
  intros s tip H. unfold tipTodo in *. cbn [tick TodoChain].
  destruct (List.rev (TodoChain s)); [discriminate|].
  injection H as ->. reflexivity.
Qed.

(** The handlers on a chain with a tip, in one step. *)
Lemma handleCreateTodo_eq : forall m s tip,
  tipTodo s = Ret tip s ->
  handleCreateTodo (Some m) s
  = committed StatusCreated (built tip m (now (ticks s))) (tick s).
Proof.
  intros m s tip Htip. destruct (tipTodo_rev s tip Htip) as [r Hr].
  unfold handleCreateTodo, bind at 1. rewrite Htip.
  unfold bind at 1. rewrite generateBlock_built.
  apply appendTodo_valid with (tip := tip) (r := r); [exact Hr|apply built_valid].
Qed.

Lemma handleUpdateTodo_eq : forall originalHash m s tip,
  tipTodo s = Ret tip s ->
  handleUpdateTodo originalHash (Some m) s
  = committed StatusOK
      (set_UpdateStamp
         (built tip (mkTodoMessage (mTitle m) (mNotes m) originalHash)
                (now (ticks s)))
         (now (S (ticks s))))
      (tick (tick s)).
Proof.
  intros h m s tip Htip. destruct (tipTodo_rev s tip Htip) as [r Hr].
  unfold handleUpdateTodo, bind at 1. rewrite Htip.
  unfold bind at 1. rewrite generateBlock_built.
  unfold bind at 1, time_Now. cbn [tick ticks TodoChain todoFile creates w].
  apply appendTodo_valid with (tip := tip) (r := r); [exact Hr|].
  unfold set_UpdateStamp, built.
  cbn [Index Title Notes CreateStamp UpdateStamp CompleteStamp DeleteStamp
       Hash OrigHash PrevHash mTitle mNotes mOrigHash].
  rewrite <- (built_valid tip (mkTodoMessage (mTitle m) (mNotes m) h) (now (ticks s))).
  unfold built. apply isTodoValid_stamps.
Qed.

Lemma in_rev_tip : forall (td : Todo) chain,
  In td chain -> exists tip r, List.rev chain = tip :: r.
Proof.
  intros td chain Hin. destruct (List.rev chain) as [|tip r] eqn:E.
  - apply in_rev in Hin. rewrite E in Hin. destruct Hin.
  - now exists tip, r.
Qed.

Lemma handleCompleteTodo_eq : forall originalHash s tip original,
  findTodo originalHash (TodoChain s) = (Some original, None) ->
  tipTodo s = Ret tip s ->
  handleCompleteTodo originalHash s
  = committed StatusOK
      (set_CompleteStamp
         (set_UpdateStamp
            (set_DeleteStamp
               (built tip (mkTodoMessage (Title original) (Notes original)
                                         originalHash)
                      (now (ticks s)))
               (DeleteStamp original))
            (now (S (ticks s))))
         (now (S (ticks s))))
      (tick (tick s)).
Proof.
  intros h s tip orig Hfind Htip. destruct (tipTodo_rev s tip Htip) as [r Hr].
  unfold handleCompleteTodo, bind at 1, getChain. rewrite Hfind.
  unfold bind at 1, ret. unfold bind at 1, deref.
  unfold bind at 1. rewrite Htip.
  unfold bind at 1. rewrite generateBlock_built.
  unfold bind at 1, time_Now. cbn [tick ticks TodoChain todoFile creates w].
  apply appendTodo_valid with (tip := tip) (r := r); [exact Hr|].
  unfold set_CompleteStamp, set_UpdateStamp, set_DeleteStamp, built.
  cbn [Index Title Notes CreateStamp UpdateStamp CompleteStamp DeleteStamp
       Hash OrigHash PrevHash mTitle mNotes mOrigHash].
  rewrite <- (built_valid tip (mkTodoMessage (Title orig) (Notes orig) h)
                          (now (ticks s))).
  unfold built. apply isTodoValid_stamps.
Qed.

Lemma handleDeleteTodo_eq : forall originalHash s tip original,
  findTodo originalHash (TodoChain s) = (Some original, None) ->
  tipTodo s = Ret tip s ->
  handleDeleteTodo originalHash s
  = committed StatusOK
      (set_DeleteStamp
         (set_UpdateStamp
            (set_CompleteStamp
               (built tip (mkTodoMessage (Title original) (Notes original)
                                         originalHash)
                      (now (ticks s)))
               (CompleteStamp original))
            (now (S (ticks s))))
         (now (S (ticks s))))
      (tick (tick s)).
Proof.
  intros h s tip orig Hfind Htip. destruct (tipTodo_rev s tip Htip) as [r Hr].
  unfold handleDeleteTodo, bind at 1, getChain. rewrite Hfind.
  unfold bind at 1, ret. unfold bind at 1, deref.
  unfold bind at 1. rewrite Htip.
  unfold bind at 1. rewrite generateBlock_built.
  unfold bind at 1, time_Now. cbn [tick ticks TodoChain todoFile creates w].
  apply appendTodo_valid with (tip := tip) (r := r); [exact Hr|].
  unfold set_CompleteStamp, set_UpdateStamp, set_DeleteStamp, built.
  cbn [Index Title Notes CreateStamp UpdateStamp CompleteStamp DeleteStamp
       Hash OrigHash PrevHash mTitle mNotes mOrigHash].
  rewrite <- (built_valid tip (mkTodoMessage (Title orig) (Notes orig) h)
                          (now (ticks s))).
  unfold built. apply isTodoValid_stamps.
Qed.

(** The complete and the delete handler when the target is unknown:
    the status 404 is written (unless a status was written before) and
    the nil pointer is dereferenced. *)
Lemma handleCompleteTodo_unknown : forall originalHash s,
  findTodo originalHash (TodoChain s)
  = (None, errors_New "original todo not found") ->
  handleCompleteTodo originalHash s
  = Panic (world_of (WriteHeader StatusNotFound s)).
Proof.
  intros h s Hfind. unfold handleCompleteTodo, bind at 1, getChain.
  rewrite Hfind. unfold errors_New, bind at 1, WriteHeader.
  destruct (status (w s)); reflexivity.
Qed.

Lemma handleDeleteTodo_unknown : forall originalHash s,
  findTodo originalHash (TodoChain s)
  = (None, errors_New "original todo not found") ->
  handleDeleteTodo originalHash s
  = Panic (world_of (WriteHeader StatusNotFound s)).
Proof.
  intros h s Hfind. unfold handleDeleteTodo, bind at 1, getChain.
  rewrite Hfind. unfold errors_New, bind at 1, WriteHeader.
  destruct (status (w s)); reflexivity.
Qed.

(** *** The mutating handlers *)

(** X7. On a chain with a tip and with a well-formed body, when the file
    can be created, [handleCreateTodo] returns having appended exactly
    one record, valid against the tip, saved the new chain and sent the
    record with status 201. The record has the title and the notes of the
    body and zero optional stamps; its [OrigHash] is whatever [orig_hash]
    the body carried, so a create request can enter a record that amends
    another. *)
Theorem handleCreateTodo_appends : forall m s tip,
  tipTodo s = Ret tip s ->
  os_Create (creates s) = None ->
  exists newTodo s',
    handleCreateTodo (Some m) s = Ret tt s'
    /\ TodoChain s' = (TodoChain s ++ [newTodo])%list
    /\ todoFile s' = Some (TodoChain s')
    /\ w s' = responded StatusCreated (JTodo newTodo) (w s)
    /\ isTodoValid newTodo tip = true
    /\ Title newTodo = mTitle m
    /\ Notes newTodo = mNotes m
    /\ OrigHash newTodo = mOrigHash m
    /\ CreateStamp newTodo = now (ticks s)
    /\ UpdateStamp newTodo = Time_zero
    /\ CompleteStamp newTodo = Time_zero
    /\ DeleteStamp newTodo = Time_zero.
Proof.
  intros m s tip Htip Hos.
  rewrite (handleCreateTodo_eq m s tip Htip). unfold committed.
  cbn [tick creates]. rewrite Hos.
  eexists. eexists. split; [reflexivity|].
  cbn [TodoChain todoFile w tick].
  split; [reflexivity|]. split; [reflexivity|]. split; [reflexivity|].
  split; [apply built_valid|]. repeat split.
Qed.

(** X8. [handleUpdateTodo] does not look its target up: on a chain with a
    tip and with a well-formed body, when the file can be created, it
    appends and saves one valid record for any target hash, found in the
    chain or not, and sends it with status 200. The record has the title
    and notes of the body, the target hash of the URL as [OrigHash]
    (an [orig_hash] in the body is overwritten), the second clock reading
    as [UpdateStamp], and zero [CompleteStamp] and [DeleteStamp]. *)
Theorem handleUpdateTodo_appends : forall originalHash m s tip,
  tipTodo s = Ret tip s ->
  os_Create (creates s) = None ->
  exists updateTodo s',
    handleUpdateTodo originalHash (Some m) s = Ret tt s'
    /\ TodoChain s' = (TodoChain s ++ [updateTodo])%list
    /\ todoFile s' = Some (TodoChain s')
    /\ w s' = responded StatusOK (JTodo updateTodo) (w s)
    /\ isTodoValid updateTodo tip = true
    /\ Title updateTodo = mTitle m
    /\ Notes updateTodo = mNotes m
    /\ OrigHash updateTodo = originalHash
    /\ CreateStamp updateTodo = now (ticks s)
    /\ UpdateStamp updateTodo = now (S (ticks s))
    /\ CompleteStamp updateTodo = Time_zero
    /\ DeleteStamp updateTodo = Time_zero.
Proof.
  intros h m s tip Htip Hos.
  pose proof (handleUpdateTodo_eq h m s tip Htip) as Heq.
  assert (Hv : isTodoValid
                 (set_UpdateStamp
                    (built tip (mkTodoMessage (mTitle m) (mNotes m) h) (now (ticks s)))
                    (now (S (ticks s)))) tip = true).
  { rewrite <- (built_valid tip (mkTodoMessage (mTitle m) (mNotes m) h)
                            (now (ticks s))).
    unfold set_UpdateStamp, built. apply isTodoValid_stamps. }
  rewrite Heq. unfold committed. cbn [tick creates]. rewrite Hos.
  eexists. eexists. split; [reflexivity|].
  cbn [TodoChain todoFile w tick].
  split; [reflexivity|]. split; [reflexivity|]. split; [reflexivity|].
  split; [exact Hv|]. repeat split.
Qed.

(** X9. When the target hash is found, [handleCompleteTodo] appends and
    saves one valid record and sends it with status 200 (the file being
    creatable). The record copies the title and the notes of the record
    [findTodo] returned, that is of the first record with that hash, not
    of the latest update of the item; its [OrigHash] is the target hash,
    [UpdateStamp] and [CompleteStamp] are the same clock reading, and
    [DeleteStamp] is copied from the record found. *)
Theorem handleCompleteTodo_appends : forall originalHash s tip original,
  findTodo originalHash (TodoChain s) = (Some original, None) ->
  tipTodo s = Ret tip s ->
  os_Create (creates s) = None ->
  exists completeTodo s',
    handleCompleteTodo originalHash s = Ret tt s'
    /\ TodoChain s' = (TodoChain s ++ [completeTodo])%list
    /\ todoFile s' = Some (TodoChain s')
    /\ w s' = responded StatusOK (JTodo completeTodo) (w s)
    /\ isTodoValid completeTodo tip = true
    /\ Title completeTodo = Title original
    /\ Notes completeTodo = Notes original
    /\ OrigHash completeTodo = originalHash
    /\ CreateStamp completeTodo = now (ticks s)
    /\ UpdateStamp completeTodo = now (S (ticks s))
    /\ CompleteStamp completeTodo = now (S (ticks s))
    /\ DeleteStamp completeTodo = DeleteStamp original.
Proof.
  intros h s tip orig Hfind Htip Hos.
  pose proof (handleCompleteTodo_eq h s tip orig Hfind Htip) as Heq.
  rewrite Heq. unfold committed. cbn [tick creates]. rewrite Hos.
  eexists. eexists. split; [reflexivity|].
  cbn [TodoChain todoFile w tick].
  split; [reflexivity|]. split; [reflexivity|]. split; [reflexivity|].
  split; [|repeat split].
  rewrite <- (built_valid tip (mkTodoMessage (Title orig) (Notes orig) h)
                          (now (ticks s))).
  unfold set_CompleteStamp, set_UpdateStamp, set_DeleteStamp, built.
  apply isTodoValid_stamps.
Qed.

(** X10. When the target hash is found, [handleDeleteTodo] appends and
    saves one valid record and sends it with status 200 (the file being
    creatable): nothing is removed from the chain. The record copies the
    title and notes of the record found, has the target hash as
    [OrigHash], the same clock reading as [UpdateStamp] and [DeleteStamp],
    and the [CompleteStamp] of the record found. *)
Theorem handleDeleteTodo_appends : forall originalHash s tip original,
  findTodo originalHash (TodoChain s) = (Some original, None) ->
  tipTodo s = Ret tip s ->
  os_Create (creates s) = None ->
  exists deleteTodo s',
    handleDeleteTodo originalHash s = Ret tt s'
    /\ TodoChain s' = (TodoChain s ++ [deleteTodo])%list
    /\ todoFile s' = Some (TodoChain s')
    /\ w s' = responded StatusOK (JTodo deleteTodo) (w s)
    /\ isTodoValid deleteTodo tip = true
    /\ Title deleteTodo = Title original
    /\ Notes deleteTodo = Notes original
    /\ OrigHash deleteTodo = originalHash
    /\ CreateStamp deleteTodo = now (ticks s)
    /\ UpdateStamp deleteTodo = now (S (ticks s))
    /\ DeleteStamp deleteTodo = now (S (ticks s))
    /\ CompleteStamp deleteTodo = CompleteStamp original.
Proof.
  intros h s tip orig Hfind Htip Hos.
  pose proof (handleDeleteTodo_eq h s tip orig Hfind Htip) as Heq.
  rewrite Heq. unfold committed. cbn [tick creates]. rewrite Hos.
  eexists. eexists. split; [reflexivity|].
  cbn [TodoChain todoFile w tick].
  split; [reflexivity|]. split; [reflexivity|]. split; [reflexivity|].
  split; [|repeat split].
  rewrite <- (built_valid tip (mkTodoMessage (Title orig) (Notes orig) h)
                          (now (ticks s))).
  unfold set_CompleteStamp, set_UpdateStamp, set_DeleteStamp, built.
  apply isTodoValid_stamps.
Qed.

(** *** One request *)

(** The world a request is served in: that of the server, with a fresh
    [ResponseWriter]. *)
Definition fresh_w (s : World) : World :=
  mkWorld (TodoChain s) (todoFile s) (ticks s) (creates s)
          (mkResponseWriter None []).

(** The four ways a request can end, seen from the world [s] it started
    in: answered without touching the chain; a valid record stored and
    sent; a panic before anything was built; the process ended by a
    failed save after the record was appended in memory. *)
Inductive served_as (s : World) : Outcome unit -> Prop :=
| answered : forall code payload,
    In code [StatusOK; StatusBadRequest; StatusNotFound] ->
    served_as s (Ret tt (mkWorld (TodoChain s) (todoFile s) (ticks s) (creates s)
                                 (mkResponseWriter (Some code) [payload])))
| stored : forall code c tip r t,
    In code [StatusOK; StatusCreated] ->
    List.rev (TodoChain s) = tip :: r ->
    isTodoValid c tip = true ->
    os_Create (creates s) = None ->
    served_as s (Ret tt (mkWorld (TodoChain s ++ [c])%list
                                 (Some (TodoChain s ++ [c])%list)
                                 t (S (creates s))
                                 (mkResponseWriter (Some code) [JTodo c])))
| panicked : forall st,
    served_as s (Panic (mkWorld (TodoChain s) (todoFile s) (ticks s) (creates s)
                                (mkResponseWriter st [])))
| exited : forall c tip r t,
    List.rev (TodoChain s) = tip :: r ->
    isTodoValid c tip = true ->
    os_Create (creates s) <> None ->
    served_as s (Exit (mkWorld (TodoChain s ++ [c])%list (todoFile s)
                               t (S (creates s))
                               (mkResponseWriter None []))).

Lemma committed_served_as : forall code c s0 s tip r,
  TodoChain s0 = TodoChain s -> todoFile s0 = todoFile s ->
  creates s0 = creates s -> w s0 = mkResponseWriter None [] ->
  In code [StatusOK; StatusCreated] ->
  List.rev (TodoChain s) = tip :: r ->
  isTodoValid c tip = true ->
  served_as s (committed code c s0).
Proof.
  intros code c s0 s tip r Hc Hf Hk Hw Hcode Hr Hv.
  unfold committed. rewrite Hc, Hf, Hk, Hw.
  cbn [responded status body app].
  destruct (os_Create (creates s)) eqn:E.
  - apply exited with (tip := tip) (r := r); auto. congruence.
  - apply stored with (tip := tip) (r := r); auto.
Qed.

Lemma committed_not_panic : forall code c s s',
  committed code c s <> Panic s'.
Proof.
  intros code c s s'. unfold committed.
  destruct (os_Create (creates s)); discriminate.
Qed.

Lemma tipTodo_fresh : forall s tip r,
  List.rev (TodoChain s) = tip :: r -> tipTodo (fresh_w s) = Ret tip (fresh_w s).
Proof.
  intros s tip r Hr. unfold tipTodo. cbn [fresh_w TodoChain]. now rewrite Hr.
Qed.

Lemma updateTodo_valid : forall tip message t u,
  isTodoValid (set_UpdateStamp (built tip message t) u) tip = true.
Proof.
  intros. rewrite <- (built_valid tip message t).
  unfold set_UpdateStamp, built. apply isTodoValid_stamps.
Qed.

Lemma completeTodo_valid : forall tip message t d u k,
  isTodoValid
    (set_CompleteStamp (set_UpdateStamp (set_DeleteStamp (built tip message t) d) u) k)
    tip = true.
Proof.
  intros. rewrite <- (built_valid tip message t).
  unfold set_CompleteStamp, set_UpdateStamp, set_DeleteStamp, built.
  apply isTodoValid_stamps.
Qed.

Lemma deleteTodo_valid : forall tip message t k u d,
  isTodoValid
    (set_DeleteStamp (set_UpdateStamp (set_CompleteStamp (built tip message t) k) u) d)
    tip = true.
Proof.
  intros. rewrite <- (built_valid tip message t).
  unfold set_CompleteStamp, set_UpdateStamp, set_DeleteStamp, built.
  apply isTodoValid_stamps.
Qed.

Lemma rev_nil_inv : forall chain : list Todo, List.rev chain = [] -> chain = [].
Proof.
  intros chain H. rewrite <- (rev_involutive chain), H. reflexivity.
Qed.

(** The requests one by one. *)
Lemma ServeHTTP_GET_api : forall s,
  ServeHTTP GET_api s
  = Ret tt (mkWorld (TodoChain s) (todoFile s) (ticks s) (creates s)
                    (mkResponseWriter (Some StatusOK) [JChain (TodoChain s)])).
Proof. reflexivity. Qed.

Lemma ServeHTTP_GET_hash : forall hash s,
  ServeHTTP (GET_hash hash) s
  = Ret tt (mkWorld (TodoChain s) (todoFile s) (ticks s) (creates s)
                    (mkResponseWriter
                       (Some (match snd (loadTodoDetail hash (TodoChain s)) with
                              | Some _ => StatusNotFound
                              | None => StatusOK
                              end))
                       [JDetail (fst (loadTodoDetail hash (TodoChain s)))])).
Proof.
  intros hash s. unfold ServeHTTP. cbn [route]. unfold handleGetTodo.
  unfold bind at 1, getChain. cbn [TodoChain].
  destruct (loadTodoDetail hash (TodoChain s)) as [d [e|]];
    rewrite respondWithJSON_eq; reflexivity.
Qed.

Lemma ServeHTTP_malformed : forall r s,
  r = POST_api None \/ (exists h, r = PUT_hash h None) ->
  ServeHTTP r s
  = Ret tt (mkWorld (TodoChain s) (todoFile s) (ticks s) (creates s)
                    (mkResponseWriter (Some StatusBadRequest) [JBody])).
Proof. intros r s [->|[h ->]]; reflexivity. Qed.

Lemma ServeHTTP_no_tip : forall r s,
  TodoChain s = [] ->
  (exists m, r = POST_api (Some m)) \/ (exists h m, r = PUT_hash h (Some m)) ->
  ServeHTTP r s = Panic (fresh_w s).
Proof.
  intros r s He [[m ->]|[h [m ->]]]; unfold ServeHTTP; cbn [route];
    unfold handleCreateTodo, handleUpdateTodo, bind, tipTodo, fresh_w;
    cbn [TodoChain]; rewrite He; reflexivity.
Qed.

Lemma ServeHTTP_unknown : forall r h s,
  r = POST_hash h \/ r = DELETE_hash h ->
  (forall td, In td (TodoChain s) -> Hash td <> h) ->
  ServeHTTP r s
  = Panic (mkWorld (TodoChain s) (todoFile s) (ticks s) (creates s)
                   (mkResponseWriter (Some StatusNotFound) [])).
Proof.
  intros r h s Hr Hn.
  assert (Hf : findTodo h (TodoChain (fresh_w s))
               = (None, errors_New "original todo not found")).
  { destruct (findTodo_result h (TodoChain s)) as [(td & _ & Hin & Hh)|[Hf _]].
    - exfalso. exact (Hn td Hin Hh).
    - exact Hf. }
  destruct Hr as [-> | ->]; change (ServeHTTP ?r s) with (route r (fresh_w s));
    cbn [route].
  - rewrite (handleCompleteTodo_unknown h (fresh_w s) Hf). reflexivity.
  - rewrite (handleDeleteTodo_unknown h (fresh_w s) Hf). reflexivity.
Qed.

Lemma ServeHTTP_served_as : forall r s, served_as s (ServeHTTP r s).
Proof.
  intros r s. destruct r as [|[m|]|h|h|h [m|]|h].
  - rewrite ServeHTTP_GET_api. apply answered. simpl. auto.
  - destruct (List.rev (TodoChain s)) as [|tip r] eqn:Hr.
    + rewrite (ServeHTTP_no_tip _ s (rev_nil_inv _ Hr)) by (left; eauto).
      apply panicked.
    + change (ServeHTTP (POST_api (Some m)) s)
        with (handleCreateTodo (Some m) (fresh_w s)).
      rewrite (handleCreateTodo_eq m _ tip (tipTodo_fresh s tip r Hr)).
      apply committed_served_as with (tip := tip) (r := r);
        try reflexivity; [simpl; auto|exact Hr|apply built_valid].
  - rewrite (ServeHTTP_malformed _ s) by (left; reflexivity).
    apply answered. simpl. auto.
  - rewrite ServeHTTP_GET_hash. apply answered.
    destruct (snd (loadTodoDetail h (TodoChain s))); simpl; auto.
  - destruct (findTodo_result h (TodoChain s)) as [(td & Hf & Hin & Hh)|[Hf Hn]].
    + destruct (in_rev_tip td _ Hin) as (tip & r & Hr).
      change (ServeHTTP (POST_hash h) s) with (handleCompleteTodo h (fresh_w s)).
      rewrite (handleCompleteTodo_eq h (fresh_w s) tip td Hf (tipTodo_fresh s tip r Hr)).
      apply committed_served_as with (tip := tip) (r := r);
        try reflexivity; [simpl; auto|exact Hr|apply completeTodo_valid].
    + rewrite (ServeHTTP_unknown _ h s (or_introl eq_refl) Hn). apply panicked.
  - destruct (List.rev (TodoChain s)) as [|tip r] eqn:Hr.
    + rewrite (ServeHTTP_no_tip _ s (rev_nil_inv _ Hr)) by (right; eauto).
      apply panicked.
    + change (ServeHTTP (PUT_hash h (Some m)) s)
        with (handleUpdateTodo h (Some m) (fresh_w s)).
      rewrite (handleUpdateTodo_eq h m _ tip (tipTodo_fresh s tip r Hr)).
      apply committed_served_as with (tip := tip) (r := r);
        try reflexivity; [simpl; auto|exact Hr|apply updateTodo_valid].
  - rewrite (ServeHTTP_malformed _ s) by (right; eauto).
    apply answered. simpl. auto.
  - destruct (findTodo_result h (TodoChain s)) as [(td & Hf & Hin & Hh)|[Hf Hn]].
    + destruct (in_rev_tip td _ Hin) as (tip & r & Hr).
      change (ServeHTTP (DELETE_hash h) s) with (handleDeleteTodo h (fresh_w s)).
      rewrite (handleDeleteTodo_eq h (fresh_w s) tip td Hf (tipTodo_fresh s tip r Hr)).
      apply committed_served_as with (tip := tip) (r := r);
        try reflexivity; [simpl; auto|exact Hr|apply deleteTodo_valid].
    + rewrite (ServeHTTP_unknown _ h s (or_intror eq_refl) Hn). apply panicked.
Qed.

(** X11. Every request, in every state of the server, ends in one of
    four ways. (1) It is answered with a single payload and status 200,
    400 or 404, and chain, file and clock are untouched. (2) One record,
    valid against the tip, is appended, the new chain is saved, and the
    record is sent with status 200 or 201. (3) The handler panics, with at
    most a status line written, and chain and file are untouched. (4)
    [os.Create] fails and the process ends: the record is appended in
    memory, the file is as it was, and nothing is sent. So the error
    branches of the handlers (status 500 after [generateBlock]) are never
    taken, and no record already in the chain is changed or removed. *)
Theorem ServeHTTP_outcomes : forall r s,
  (exists code payload,
      In code [StatusOK; StatusBadRequest; StatusNotFound]
      /\ ServeHTTP r s
         = Ret tt (mkWorld (TodoChain s) (todoFile s) (ticks s) (creates s)
                           (mkResponseWriter (Some code) [payload])))
  \/ (exists code c tip t,
         In code [StatusOK; StatusCreated]
         /\ tipTodo s = Ret tip s
         /\ isTodoValid c tip = true
         /\ os_Create (creates s) = None
         /\ ServeHTTP r s
            = Ret tt (mkWorld (TodoChain s ++ [c])%list
                              (Some (TodoChain s ++ [c])%list)
                              t (S (creates s))
                              (mkResponseWriter (Some code) [JTodo c])))
  \/ (exists st,
         ServeHTTP r s
         = Panic (mkWorld (TodoChain s) (todoFile s) (ticks s) (creates s)
                          (mkResponseWriter st [])))
  \/ (exists c tip t,
         tipTodo s = Ret tip s
         /\ isTodoValid c tip = true
         /\ os_Create (creates s) <> None
         /\ ServeHTTP r s
            = Exit (mkWorld (TodoChain s ++ [c])%list (todoFile s)
                            t (S (creates s)) (mkResponseWriter None []))).
Proof.
  intros r s.
  assert (Htip : forall tip r0, List.rev (TodoChain s) = tip :: r0 ->
                                tipTodo s = Ret tip s).
  { intros tip r0 Hr. unfold tipTodo. now rewrite Hr. }
  destruct (ServeHTTP_served_as r s)
    as [code payload Hc|code c tip r0 t Hc Hr Hv Hos|st|c tip r0 t Hr Hv Hos].
  - left. exists code, payload. split; [exact Hc|reflexivity].
  - right. left. exists code, c, tip, t.
    split; [exact Hc|]. split; [exact (Htip tip r0 Hr)|].
    split; [exact Hv|]. split; [exact Hos|reflexivity].
  - right. right. left. exists st. reflexivity.
  - right. right. right. exists c, tip, t.
    split; [exact (Htip tip r0 Hr)|]. split; [exact Hv|].
    split; [exact Hos|reflexivity].
Qed.

(** X12. The chain only grows at its end: after any sequence of
    requests the chain in memory is the chain before, followed by at most
    one new record per request. *)
Theorem serveAll_append_only : forall rs s,
  exists suffix,
    TodoChain (world_of (serveAll rs s)) = (TodoChain s ++ suffix)%list
    /\ (List.length suffix <= List.length rs)%nat.
Proof.
  induction rs as [|r rs IH]; intros s; cbn [serveAll].
  - exists []. split; [now rewrite app_nil_r|reflexivity].
  - destruct (ServeHTTP_served_as r s)
      as [code payload Hc|code c tip r0 t Hc Hr Hv Hos|st|c tip r0 t Hr Hv Hos].
    + destruct (IH (mkWorld (TodoChain s) (todoFile s) (ticks s) (creates s)
                            (mkResponseWriter (Some code) [payload])))
        as (suf & He & Hl).
      exists suf. cbn [TodoChain] in He. split; [exact He|cbn [List.length]; lia].
    + destruct (IH (mkWorld (TodoChain s ++ [c])%list
                            (Some (TodoChain s ++ [c])%list) t (S (creates s))
                            (mkResponseWriter (Some code) [JTodo c])))
        as (suf & He & Hl).
      exists (c :: suf). cbn [TodoChain] in He.
      rewrite He, <- app_assoc. split; [reflexivity|cbn [List.length]; lia].
    + destruct (IH (mkWorld (TodoChain s) (todoFile s) (ticks s) (creates s)
                            (mkResponseWriter st [])))
        as (suf & He & Hl).
      exists suf. cbn [TodoChain] in He. split; [exact He|cbn [List.length]; lia].
    + exists [c]. cbn [world_of TodoChain]. split; [reflexivity|cbn [List.length]; lia].
Qed.


(** X14. When a request panics. The two read requests never do. The
    create and the update request panic exactly when the body is
    well-formed and the chain is empty (there is no tip to index). The
    complete and the delete request panic exactly when no record of the
    chain has the target hash. *)
Theorem ServeHTTP_panics_iff : forall r s,
  (exists s', ServeHTTP r s = Panic s')
  <-> match r with
      | GET_api | GET_hash _ => False
      | POST_api decoded | PUT_hash _ decoded =>
          decoded <> None /\ TodoChain s = []
      | POST_hash h | DELETE_hash h =>
          forall td, In td (TodoChain s) -> Hash td <> h
      end.
Proof.
  intros r s.
  assert (Hcommit : forall code c s0, ~ exists s', committed code c s0 = Panic s').
  { intros code c s0 [s' H]. exact (committed_not_panic code c s0 s' H). }
  destruct r as [|[m|]|h|h|h [m|]|h].
  - rewrite ServeHTTP_GET_api. split; [intros [s' H]; discriminate H|intros []].
  - destruct (List.rev (TodoChain s)) as [|tip r] eqn:Hr.
    + pose proof (rev_nil_inv _ Hr) as He.
      rewrite (ServeHTTP_no_tip _ s He) by (left; eauto). split.
      * intros _. split; [discriminate|exact He].
      * intros _. eexists. reflexivity.
    + change (ServeHTTP (POST_api (Some m)) s)
        with (handleCreateTodo (Some m) (fresh_w s)).
      rewrite (handleCreateTodo_eq m _ tip (tipTodo_fresh s tip r Hr)). split.
      * intros H. exfalso. exact (Hcommit _ _ _ H).
      * intros [_ He]. rewrite He in Hr. discriminate Hr.
  - rewrite (ServeHTTP_malformed _ s) by (left; reflexivity). split.
    + intros [s' H]. discriminate H.
    + intros [H _]. contradiction.
  - rewrite ServeHTTP_GET_hash. split; [intros [s' H]; discriminate H|intros []].
  - destruct (findTodo_result h (TodoChain s)) as [(td & Hf & Hin & Hh)|[Hf Hn]].
    + destruct (in_rev_tip td _ Hin) as (tip & r & Hr).
      change (ServeHTTP (POST_hash h) s) with (handleCompleteTodo h (fresh_w s)).
      rewrite (handleCompleteTodo_eq h (fresh_w s) tip td Hf (tipTodo_fresh s tip r Hr)).
      split.
      * intros H. exfalso. exact (Hcommit _ _ _ H).
      * intros H. exfalso. exact (H td Hin Hh).
    + rewrite (ServeHTTP_unknown _ h s (or_introl eq_refl) Hn). split.
      * intros _. exact Hn.
      * intros _. eexists. reflexivity.
  - destruct (List.rev (TodoChain s)) as [|tip r] eqn:Hr.
    + pose proof (rev_nil_inv _ Hr) as He.
      rewrite (ServeHTTP_no_tip _ s He) by (right; eauto). split.
      * intros _. split; [discriminate|exact He].
      * intros _. eexists. reflexivity.
    + change (ServeHTTP (PUT_hash h (Some m)) s)
        with (handleUpdateTodo h (Some m) (fresh_w s)).
      rewrite (handleUpdateTodo_eq h m _ tip (tipTodo_fresh s tip r Hr)). split.
      * intros H. exfalso. exact (Hcommit _ _ _ H).
      * intros [_ He]. rewrite He in Hr. discriminate Hr.
  - rewrite (ServeHTTP_malformed _ s) by (right; eauto). split.
    + intros [s' H]. discriminate H.
    + intros [H _]. contradiction.
  - destruct (findTodo_result h (TodoChain s)) as [(td & Hf & Hin & Hh)|[Hf Hn]].
    + destruct (in_rev_tip td _ Hin) as (tip & r & Hr).
      change (ServeHTTP (DELETE_hash h) s) with (handleDeleteTodo h (fresh_w s)).
      rewrite (handleDeleteTodo_eq h (fresh_w s) tip td Hf (tipTodo_fresh s tip r Hr)).
      split.
      * intros H. exfalso. exact (Hcommit _ _ _ H).
      * intros H. exfalso. exact (H td Hin Hh).
    + rewrite (ServeHTTP_unknown _ h s (or_intror eq_refl) Hn). split.
      * intros _. exact Hn.
      * intros _. eexists. reflexivity.
Qed.

(** X15. The list request, the detail request and a mutating request
    with a malformed body change nothing but the response: the request
    returns, chain, file and clock are as before, and serving the same
    request again gives the same response. The list request sends the
    whole chain with status 200; the detail request sends status 404
    exactly when [loadTodoDetail] reports an error. *)
Theorem read_requests_idempotent : forall r s,
  r = GET_api \/ (exists h, r = GET_hash h)
  \/ r = POST_api None \/ (exists h, r = PUT_hash h None) ->
  exists s',
    ServeHTTP r s = Ret tt s'
    /\ TodoChain s' = TodoChain s
    /\ todoFile s' = todoFile s
    /\ ticks s' = ticks s
    /\ creates s' = creates s
    /\ ServeHTTP r s' = ServeHTTP r s
    /\ (r = GET_api ->
        w s' = mkResponseWriter (Some StatusOK) [JChain (TodoChain s)])
    /\ (forall h, r = GET_hash h ->
                  (status (w s') = Some StatusNotFound
                   <-> snd (loadTodoDetail h (TodoChain s)) <> None)
                  /\ body (w s') = [JDetail (fst (loadTodoDetail h (TodoChain s)))]).
Proof.
  intros r s [->|[[h ->]|[->|[h ->]]]].
  - rewrite ServeHTTP_GET_api. eexists. split; [reflexivity|].
    cbn [TodoChain todoFile ticks creates w]. rewrite ServeHTTP_GET_api.
    repeat split; try discriminate.
  - rewrite ServeHTTP_GET_hash. eexists. split; [reflexivity|].
    cbn [TodoChain todoFile ticks creates w]. rewrite ServeHTTP_GET_hash.
    cbn [TodoChain todoFile ticks creates w].
    split; [reflexivity|]. split; [reflexivity|]. split; [reflexivity|].
    split; [reflexivity|]. split; [reflexivity|]. split; [discriminate|].
    intros h' E. injection E as <-. cbn [status body]. split; [|reflexivity].
    destruct (snd (loadTodoDetail h (TodoChain s))); split;
      try discriminate; try congruence.
  - rewrite (ServeHTTP_malformed _ s) by (left; reflexivity).
    eexists. split; [reflexivity|].
    cbn [TodoChain todoFile ticks creates w].
    rewrite (ServeHTTP_malformed (POST_api None)) by (left; reflexivity).
    repeat split; try discriminate.
  - rewrite (ServeHTTP_malformed _ s) by (right; eauto).
    eexists. split; [reflexivity|].
    cbn [TodoChain todoFile ticks creates w].
    rewrite (ServeHTTP_malformed (PUT_hash h None)) by (right; eauto).
    repeat split; try discriminate.
Qed.

(** *** Start-up *)

(** X16. The first start. With no file, [main] reads the clock once and
    builds the genesis record: index 0, the fixed title and notes, zero
    optional stamps, empty [OrigHash] and [PrevHash], and its own digest as
    [Hash]. If the file can be created the chain in memory and the file
    both hold exactly that record; if not, the process ends through
    [log.Fatal] with the record in memory and still no file. *)
Theorem main_builds_genesis :
  exists g,
    Index g = 0%Z /\ Title g = "Genesis Todo" /\ Notes g = "Genesis Notes"
    /\ CreateStamp g = now 0
    /\ UpdateStamp g = Time_zero /\ CompleteStamp g = Time_zero
    /\ DeleteStamp g = Time_zero
    /\ OrigHash g = "" /\ PrevHash g = ""
    /\ calculateHash g = (Hash g, None)
    /\ (os_Create 0 = None ->
        main (boot None)
        = Ret tt (mkWorld [g] (Some [g]) 1 1 (mkResponseWriter None [])))
    /\ (os_Create 0 <> None ->
        main (boot None)
        = Exit (mkWorld [g] None 1 1 (mkResponseWriter None []))).
Proof.
  exists (mkTodo 0 "Genesis Todo" "Genesis Notes" (now 0) Time_zero Time_zero
                 Time_zero
                 (fst (calculateHash
                         (mkTodo 0 "Genesis Todo" "Genesis Notes" (now 0)
                                 Time_zero Time_zero Time_zero "" "" "")))
                 "" "").
  cbn [Index Title Notes CreateStamp UpdateStamp CompleteStamp DeleteStamp
       Hash OrigHash PrevHash].
  do 9 (split; [reflexivity|]).
  split.
  { match goal with
    | |- calculateHash ?g = (fst (calculateHash ?g0), None) =>
        rewrite (calculateHash_hashText g g0 eq_refl); apply calculateHash_pair
    end. }
  assert (Hm : main (boot None)
               = bind (replaceChain
                         [mkTodo 0 "Genesis Todo" "Genesis Notes" (now 0) Time_zero
                                 Time_zero Time_zero
                                 (fst (calculateHash
                                         (mkTodo 0 "Genesis Todo" "Genesis Notes"
                                                 (now 0) Time_zero Time_zero
                                                 Time_zero "" "" "")))
                                 "" ""])
                      ret
                      (mkWorld
                         [mkTodo 0 "Genesis Todo" "Genesis Notes" (now 0) Time_zero
                                 Time_zero Time_zero
                                 (fst (calculateHash
                                         (mkTodo 0 "Genesis Todo" "Genesis Notes"
                                                 (now 0) Time_zero Time_zero
                                                 Time_zero "" "" "")))
                                 "" ""]
                         None 1 0 (mkResponseWriter None []))).
  { unfold main, boot. cbn [todoFile].
    unfold bind at 1, time_Now. cbn [ticks TodoChain todoFile creates w].
    rewrite (calculateHash_pair _).
    unfold bind, getChain, setChain, ret.
    cbn [TodoChain todoFile creates w ticks app].
    rewrite !replaceChain_eq. cbv zeta. cbn [TodoChain creates].
    destruct (os_Create 0); reflexivity. }
  rewrite Hm. unfold bind. rewrite replaceChain_eq. cbv zeta.
  cbn [TodoChain todoFile ticks creates w List.length]. rewrite Nat.ltb_irrefl.
  split; intros H.
  - rewrite H. reflexivity.
  - destruct (os_Create 0); [reflexivity|contradiction].
Qed.

(** X17. A start with a file. If decoding fails the process ends with an
    empty chain. Otherwise the decoded chain is installed as it is,
    whatever it holds: no record of it is checked with [isTodoValid]; and
    it is saved again. A file that decodes to the empty chain leaves the
    server without a tip, and every create or update request with a
    well-formed body then panics. *)
Theorem main_loads_file : forall obj,
  (forall todos e,
      gobDecode obj = (todos, Some e) ->
      main (boot (Some obj)) = Exit (boot (Some obj)))
  /\ (forall todos,
         gobDecode obj = (todos, None) ->
         os_Create 0 = None ->
         main (boot (Some obj))
         = Ret tt (mkWorld todos (Some todos) 0 1 (mkResponseWriter None []))
         /\ (todos = [] ->
             forall r,
               (exists m, r = POST_api (Some m))
               \/ (exists h m, r = PUT_hash h (Some m)) ->
               exists s',
                 ServeHTTP r (mkWorld todos (Some todos) 0 1 (mkResponseWriter None []))
                 = Panic s')).
Proof.
  intros obj. split.
  - intros todos e Hd. unfold main, boot. cbn [todoFile].
    unfold bind, loadFile. cbn [todoFile]. rewrite Hd. reflexivity.
  - intros todos Hd Hos. split.
    + unfold main, boot. cbn [todoFile].
      unfold bind at 1, loadFile. cbn [todoFile]. rewrite Hd.
      rewrite replaceChain_eq. cbv zeta.
      cbn [TodoChain todoFile ticks creates w List.length]. rewrite Hos.
      destruct todos as [|td todos]; reflexivity.
    + intros -> r Hr. eexists. apply ServeHTTP_no_tip; [reflexivity|exact Hr].
Qed.

(** *** The chains the server can reach *)

Lemma served_chain_ok : forall rs, chain_ok (served rs).
Proof.
  intros rs. unfold served, bind. pose proof main_fresh as Hm.
  destruct (main (boot None)) as [[] s|s|s]; simpl in Hm.
  - now apply keeps_serveAll.
  - exact Hm.
  - exact Hm.
Qed.




Lemma loadTodoDetail_cases : forall hash chain,
  loadTodoDetail hash chain
  = match find (fun td => Hash td =? hash) (List.rev chain) with
    | Some o =>
        if Hash o =? "" then (None, errors_New "original todo not found")
        else (Some (mkTodoDetail o (filter (fun td => OrigHash td =? hash) chain)),
              None)
    | None => (None, errors_New "original todo not found")
    end.
Proof.
  intros hash chain. unfold loadTodoDetail. rewrite loadTodoDetail_loop_eq.
  cbn [OriginalTodo Updates app].
  destruct (find (fun td => Hash td =? hash) (List.rev chain)); reflexivity.
Qed.

(** X19. In every chain the server reaches from a fresh start each
    record's [Hash] is a string of 64 characters. So the empty-hash
    sentinel of [loadTodoDetail] is sound there: for every query, the
    empty one included, [loadTodoDetail] reports "original todo not found"
    exactly when no record has the query as [Hash], and it gives the same
    verdict as [findTodo]. *)
Theorem served_lookup_sound : forall rs hash,
  (forall td, In td (served rs) -> String.length (Hash td) = 64%nat)
  /\ (loadTodoDetail hash (served rs) = (None, errors_New "original todo not found")
      <-> forall td, In td (served rs) -> Hash td <> hash)
  /\ snd (findTodo hash (served rs)) = snd (loadTodoDetail hash (served rs)).
Proof.
  intros rs hash. pose proof (served_chain_ok rs) as (_ & _ & Hh).
  assert (Hlen : forall td, In td (served rs) -> String.length (Hash td) = 64%nat).
  { intros td Hin. pose proof (proj1 (Forall_forall _ _) Hh td Hin) as E.
    cbv beta in E. rewrite calculateHash_eq in E. injection E as E. rewrite <- E.
    rewrite EncodeToString_length, sum_length. reflexivity. }
  split; [exact Hlen|].
  rewrite loadTodoDetail_cases.
  destruct (find (fun td => Hash td =? hash) (List.rev (served rs))) as [o|] eqn:E.
  - pose proof (find_some _ _ E) as [Hoin Ho].
    apply in_rev in Hoin. apply String.eqb_eq in Ho.
    assert (Hne : (Hash o =? "") = false).
    { apply String.eqb_neq. intros E0. pose proof (Hlen o Hoin) as Hl.
      rewrite E0 in Hl. discriminate Hl. }
    rewrite Hne. split.
    + split; [discriminate|]. intros H. exfalso. exact (H o Hoin Ho).
    + destruct (findTodo_result hash (served rs)) as [(td & Hf & _)|[_ Hn]].
      * rewrite Hf. reflexivity.
      * exfalso. exact (Hn o Hoin Ho).
  - pose proof (proj1 (find_rev_none _ _) E) as Hnone. split.
    + split; [|reflexivity]. intros _ td Hin Heq.
      specialize (Hnone td Hin). cbv beta in Hnone.
      rewrite Heq, String.eqb_refl in Hnone. discriminate Hnone.
    + destruct (findTodo_result hash (served rs)) as [(td & _ & Hin & Heq)|[Hf _]].
      * exfalso. specialize (Hnone td Hin). cbv beta in Hnone.
        rewrite Heq, String.eqb_refl in Hnone. discriminate Hnone.
      * rewrite Hf. reflexivity.
Qed.

(** X20. How the history of an item changes when one record is appended
    to the chain, for a non-empty query. If the new record does not carry
    the query as [Hash], a history that was found keeps its original and
    gains the new record as last update exactly when the record's
    [OrigHash] is the query, and a history that was not found is still not
    found. If the new record carries the query as [Hash] (and it is not
    empty), the new record becomes the original. *)
Theorem loadTodoDetail_snoc : forall hash chain c,
  hash <> "" ->
  (Hash c <> hash ->
   (forall d,
       loadTodoDetail hash chain = (Some d, None) ->
       loadTodoDetail hash (chain ++ [c])
       = (Some (mkTodoDetail (OriginalTodo d)
                  (Updates d ++ (if OrigHash c =? hash then [c] else []))%list),
          None))
   /\ (loadTodoDetail hash chain = (None, errors_New "original todo not found") ->
       loadTodoDetail hash (chain ++ [c])
       = (None, errors_New "original todo not found")))
  /\ (Hash c = hash ->
      exists updates,
        loadTodoDetail hash (chain ++ [c])
        = (Some (mkTodoDetail c updates), None)).
Proof.
  intros hash chain c Hne.
  rewrite !loadTodoDetail_cases, rev_app_distr, filter_app.
  cbn [List.rev app find filter]. split.
  - intros Hc. apply String.eqb_neq in Hc. rewrite Hc.
    destruct (find (fun td => Hash td =? hash) (List.rev chain)) as [o|].
    + destruct (Hash o =? ""); split; intros d; intros;
        try discriminate; try reflexivity.
      match goal with
      | H : (Some _, None) = (Some d, None) |- _ => injection H as <-
      end.
      reflexivity.
    + split; intros; [discriminate|reflexivity].
  - intros Hc. subst hash. rewrite String.eqb_refl. cbv iota.
    apply String.eqb_neq in Hne. rewrite Hne. eexists. reflexivity.
Qed.

(** *** Successors *)

Lemma int_add_1_neq : forall z, int_add z 1 <> z.
Proof.
  intros z E. unfold int_add, int_wrap in E.
  pose proof (Z.mod_pos_bound (z + 1 + 2 ^ 63) (2 ^ 64) ltac:(lia)) as B.
  pose proof (Z.div_mod (z + 1 + 2 ^ 63) (2 ^ 64) ltac:(lia)) as D.
  nia.
Qed.

(** X21. No record is a valid successor of itself, so offering the tip
    again is always rejected; and two records that are both valid against
    the same tip have the same [Index] and the same [PrevHash]. *)
Theorem isTodoValid_successor : forall a b tip,
  isTodoValid tip tip = false
  /\ (isTodoValid a tip = true -> isTodoValid b tip = true ->
      Index a = Index b /\ PrevHash a = PrevHash b).
Proof.
  intros a b tip. split.
  - rewrite isTodoValid_eq.
    replace (int_add (Index tip) 1 =? Index tip)%Z with false; [reflexivity|].
    symmetry. apply Z.eqb_neq. apply int_add_1_neq.
  - intros Ha Hb. apply isTodoValid_iff in Ha, Hb.
    destruct Ha as (Ha1 & Ha2 & _), Hb as (Hb1 & Hb2 & _).
    split; congruence.
Qed.

Transparent calculateHash.

End Chain.

Arguments mkTodo {Time}.
Arguments Index {Time}.
Arguments Title {Time}.
Arguments Notes {Time}.
Arguments CreateStamp {Time}.
Arguments UpdateStamp {Time}.
Arguments CompleteStamp {Time}.
Arguments DeleteStamp {Time}.
Arguments Hash {Time}.
Arguments OrigHash {Time}.
Arguments PrevHash {Time}.
Arguments set_Index {Time}.
Arguments set_Title {Time}.
Arguments set_Notes {Time}.
Arguments set_CreateStamp {Time}.
Arguments set_UpdateStamp {Time}.
Arguments set_CompleteStamp {Time}.
Arguments set_DeleteStamp {Time}.
Arguments set_Hash {Time}.
Arguments set_OrigHash {Time}.
Arguments set_PrevHash {Time}.
Arguments mkTodoDetail {Time}.
Arguments OriginalTodo {Time}.
Arguments Updates {Time}.
Arguments JTodo {Time}.
Arguments mkResponseWriter {Time}.
Arguments status {Time}.
Arguments body {Time}.
Arguments mkWorld {Time}.
Arguments TodoChain {Time}.
Arguments todoFile {Time}.
Arguments ticks {Time}.
Arguments creates {Time}.
Arguments w {Time}.
Arguments Ret {Time A}.
Arguments Panic {Time A}.
Arguments Exit {Time A}.
Arguments world_of {Time A}.
Arguments boot {Time}.
Arguments responded {Time}.

(** ** A run of the server

    A concrete environment, used to evaluate the program: a [time.Time] is
    represented by the text its [String] method prints, the clock gives the
    readings below, the file can always be created and decodes to what was
    encoded. *)

Module Run.

Definition Time : Type := string.
Definition Time_zero : Time := "0001-01-01 00:00:00 +0000 UTC".
Definition Time_String (t : Time) : string := t.

Definition readings : list Time :=
  [ "2018-04-01 09:00:00.000000001 +0000 UTC m=+0.010000001";
    "2018-04-01 09:01:00.5 +0000 UTC m=+60.510000000";
    "2018-04-01 09:02:00.25 +0000 UTC m=+120.260000000";
    "2018-04-01 09:02:00.250001 +0000 UTC m=+120.260001000";
    "2018-04-01 09:03:00.75 +0000 UTC m=+180.760000000";
    "2018-04-01 09:03:00.750001 +0000 UTC m=+180.760001000";
    "2018-04-01 09:04:00.125 +0000 UTC m=+240.135000000";
    "2018-04-01 09:04:00.125001 +0000 UTC m=+240.135001000" ].

Definition now (k : nat) : Time := nth k readings Time_zero.
Definition os_Create (k : nat) : error := None.
Definition gobDecode (obj : list (Todo Time)) : list (Todo Time) * error :=
  (obj, None).

Abbreviation calculateHash := (calculateHash Time Time_String).
Abbreviation hashText := (hashText Time Time_String).
Abbreviation isTodoValid := (isTodoValid Time Time_String).
Abbreviation findTodo := (findTodo Time).
Abbreviation loadTodoDetail := (loadTodoDetail Time Time_zero).
Abbreviation tipTodo := (tipTodo Time).
Abbreviation replaceChain := (replaceChain Time os_Create).
Abbreviation appendTodo := (appendTodo Time Time_String os_Create).
Abbreviation ServeHTTP := (ServeHTTP Time Time_zero Time_String now os_Create).
Abbreviation main := (main Time Time_zero Time_String now os_Create gobDecode).
Abbreviation served := (served Time Time_zero Time_String now os_Create gobDecode).
Abbreviation zero := (Todo_zero Time Time_zero).

(** The last record of the chain in memory. *)
Definition tip (s : World Time) : Todo Time := last (TodoChain s) zero.

(** A world with the chain and file of [s] and a fresh writer. *)
Definition fresh (s : World Time) : World Time :=
  mkWorld (TodoChain s) (todoFile s) (ticks s) (creates s)
          (mkResponseWriter None []).

(** First start: the chain holds the genesis record. *)
Definition started : World Time := world_of (main (boot None)).
Definition genesis : Todo Time := tip started.

(** Scenario 1: create "Buy milk". *)
Definition milk : TodoMessage := mkTodoMessage "Buy milk" "2%" "".
Definition created : World Time :=
  world_of (ServeHTTP (POST_api (Some milk)) started).
Definition item : Todo Time := tip created.

(** The item is completed, then updated. *)
Definition completed : World Time :=
  world_of (ServeHTTP (POST_hash (Hash item)) created).
Definition updated : World Time :=
  world_of (ServeHTTP (PUT_hash (Hash item) (Some (mkTodoMessage "Buy milk" "1%" "")))
                      completed).

(** The same update, aimed at the completion record itself. *)
Definition updated_tip : World Time :=
  world_of (ServeHTTP (PUT_hash (Hash (tip completed))
                                (Some (mkTodoMessage "Buy milk" "1%" "")))
                      completed).

(** A hash that no record of these chains carries. *)
Definition unknown : string := "deadbeef".

(** The requests of scenarios 1 to 3, by the hash of the created record. *)
Definition requests : list Request :=
  [ POST_api (Some milk);
    PUT_hash "ef9dc0afc65bf615720564e2d54f9cc26eb9c0fa547365e45b08902711f428c0"
             (Some (mkTodoMessage "Buy milk" "1%" ""));
    POST_hash "ef9dc0afc65bf615720564e2d54f9cc26eb9c0fa547365e45b08902711f428c0" ].

End Run.

Ltac evaluate := vm_compute; reflexivity.
Ltac differ :=
  first [ apply String.eqb_neq; vm_compute; reflexivity
        | apply Z.eqb_neq; vm_compute; reflexivity ].
Ltac conjuncts := repeat match goal with |- _ /\ _ => split end.

(** ** Known answers of SHA-256 *)

Example sha256_empty :
  EncodeToString (SHA256.sum (list_byte_of_string ""))
  = "e3b0c44298fc1c149afbf4c8996fb92427ae41e4649b934ca495991b7852b855".
Proof. evaluate. Qed.

Example sha256_abc :
  EncodeToString (SHA256.sum (list_byte_of_string "abc"))
  = "ba7816bf8f01cfea414140de5dae2223b00361a396177a9cb410ff61f20015ad".
Proof. evaluate. Qed.

(** A message of 56 bytes, padded to two blocks. *)
Example sha256_two_blocks :
  EncodeToString
    (SHA256.sum (list_byte_of_string
                   "abcdbcdecdefdefgefghfghighijhijkijkljklmklmnlmnomnopnopq"))
  = "248d6a61d20638b8e5c026930c3e6039a33ce45964ff2167f6ecedd419db06c1".
Proof. evaluate. Qed.

(** [string(int)] on valid and invalid code points. *)
Example intstring_bytes :
  list_byte_of_string (intstring 0x41) = [x41]
  /\ list_byte_of_string (intstring 0x20AC) = [xe2; x82; xac]
  /\ list_byte_of_string (intstring 0x10FFFF) = [xf4; x8f; xbf; xbf]
  /\ list_byte_of_string (intstring 0xD800) = [xef; xbf; xbd]
  /\ list_byte_of_string (intstring (-1)) = [xef; xbf; xbd]
  /\ list_byte_of_string (intstring (2 ^ 40)) = [xef; xbf; xbd].
Proof. conjuncts; evaluate. Qed.

(** ** The program on the run above *)



(** C2 on the chain that holds the genesis record only. No record has the
    hash [unknown]. The update request with that target is answered with
    status 200 and appends a record; the complete and the delete request
    write the status 404 and then panic on the nil pointer that [findTodo]
    returned, leaving the chain as it was. *)
Lemma unknown_target_not_reported :
  Run.findTodo Run.unknown (TodoChain Run.started)
  = (None, Some "original todo not found")
  /\ (exists s',
         Run.ServeHTTP (PUT_hash Run.unknown (Some Run.milk)) Run.started = Ret tt s'
         /\ status (w s') = Some StatusOK
         /\ List.length (TodoChain s') = S (List.length (TodoChain Run.started))
         /\ OrigHash (Run.tip s') = Run.unknown)
  /\ Run.ServeHTTP (POST_hash Run.unknown) Run.started
     = Panic (mkWorld (TodoChain Run.started) (todoFile Run.started)
                      (ticks Run.started) (creates Run.started)
                      (mkResponseWriter (Some StatusNotFound) []))
  /\ Run.ServeHTTP (DELETE_hash Run.unknown) Run.started
     = Panic (mkWorld (TodoChain Run.started) (todoFile Run.started)
                      (ticks Run.started) (creates Run.started)
                      (mkResponseWriter (Some StatusNotFound) [])).
Proof.
  split; [evaluate|]. split; [|split; evaluate].
  eexists. split; [evaluate|]. conjuncts; evaluate.
Qed.

Lemma replaceChain_longest_wins_witness :
  TodoChain (world_of (Run.replaceChain (TodoChain Run.created) Run.started))
  = TodoChain Run.created
  /\ TodoChain (world_of (Run.replaceChain (TodoChain Run.started) Run.created))
     = TodoChain Run.created.
Proof.
  split.
  - apply (proj1 (replaceChain_longest_wins Run.Time Run.os_Create
                    (TodoChain Run.created) Run.started)).
    vm_compute. lia.
  - apply (proj2 (replaceChain_longest_wins Run.Time Run.os_Create
                    (TodoChain Run.started) Run.created)).
    vm_compute. lia.
Defined.

(** C4 on the run above. The item of scenario 1 was completed: the
    completion record, the latest of the item, carries a [CompleteStamp].
    An update appends a record whose [CompleteStamp] is the zero time,
    whether it targets the item by the hash of its first record or targets
    the completion record itself. *)
Lemma update_drops_CompleteStamp :
  OrigHash (Run.tip Run.completed) = Hash Run.item
  /\ CompleteStamp (Run.tip Run.completed) = Run.now 3
  /\ Run.now 3 <> Run.Time_zero
  /\ List.length (TodoChain Run.updated) = S (List.length (TodoChain Run.completed))
  /\ OrigHash (Run.tip Run.updated) = Hash Run.item
  /\ UpdateStamp (Run.tip Run.updated) = Run.now 5
  /\ CompleteStamp (Run.tip Run.updated) = Run.Time_zero
  /\ List.length (TodoChain Run.updated_tip) = S (List.length (TodoChain Run.completed))
  /\ OrigHash (Run.tip Run.updated_tip) = Hash (Run.tip Run.completed)
  /\ CompleteStamp (Run.tip Run.updated_tip) = Run.Time_zero.
Proof.
  split; [evaluate|]. split; [evaluate|]. split; [differ|].
  conjuncts; evaluate.
Qed.

Lemma calculateHash_field_set_witness :
  Run.hashText (set_Index Run.item 2) <> Run.hashText Run.item
  /\ Run.hashText (set_Title Run.item "Buy bread") <> Run.hashText Run.item
  /\ Run.hashText (set_Notes Run.item "1%") <> Run.hashText Run.item
  /\ Run.hashText (set_CreateStamp Run.item (Run.now 7)) <> Run.hashText Run.item
  /\ Run.hashText (set_PrevHash Run.item "") <> Run.hashText Run.item.
Proof.
  destruct (calculateHash_field_set Run.Time Run.Time_String)
    as (_ & _ & HI & HT & HN & HC & HP).
  conjuncts.
  - apply HI. differ.
  - apply HT. differ.
  - apply HN. differ.
  - apply HC. differ.
  - apply HP. differ.
Defined.

(** C5 as stated fails: [Hash] and [OrigHash] are not the only fields left
    out of the hash input. Two records that differ in [UpdateStamp] only
    have the same digest. *)
Lemma calculateHash_ignores_UpdateStamp :
  UpdateStamp (set_UpdateStamp Run.item (Run.now 2)) <> UpdateStamp Run.item
  /\ Hash (set_UpdateStamp Run.item (Run.now 2)) = Hash Run.item
  /\ OrigHash (set_UpdateStamp Run.item (Run.now 2)) = OrigHash Run.item
  /\ Run.calculateHash (set_UpdateStamp Run.item (Run.now 2))
     = Run.calculateHash Run.item.
Proof.
  split; [differ|]. conjuncts; evaluate.
Qed.

Lemma appendTodo_rejected_silently_witness :
  Run.tipTodo (Run.fresh Run.created) = Ret Run.item (Run.fresh Run.created)
  /\ Run.isTodoValid Run.item Run.item = false
  /\ exists s',
       Run.appendTodo StatusCreated Run.item (Run.fresh Run.created) = Ret tt s'
       /\ TodoChain s' = TodoChain (Run.fresh Run.created)
       /\ todoFile s' = todoFile (Run.fresh Run.created)
       /\ w s' = responded StatusCreated (JTodo Run.item) (w (Run.fresh Run.created)).
Proof.
  assert (Htip : Run.tipTodo (Run.fresh Run.created)
                 = Ret Run.item (Run.fresh Run.created)) by evaluate.
  assert (Hbad : Run.isTodoValid Run.item Run.item = false) by evaluate.
  split; [exact Htip|]. split; [exact Hbad|].
  destruct (appendTodo_rejected_silently Run.Time Run.Time_String Run.os_Create
              StatusCreated Run.item (Run.fresh Run.created) Run.item Htip Hbad)
    as (s' & Hrun & Hc & Hf & _ & Hw & _).
  exists s'. split; [exact Hrun|]. split; [exact Hc|]. split; [exact Hf|exact Hw].
Defined.

(** C6 as stated fails. The record of scenario 1 is offered twice with
    the status code of [handleCreateTodo]: to the chain that ends with the
    genesis record, where it is valid and is appended, and to the chain
    that already ends with it, where it is not valid and the chain stays as
    it is. The caller receives the same status and the same body both
    times. *)
Lemma appendTodo_rejection_not_reported :
  Run.isTodoValid Run.item (Run.tip Run.started) = true
  /\ TodoChain (world_of (Run.appendTodo StatusCreated Run.item (Run.fresh Run.started)))
     = (TodoChain Run.started ++ [Run.item])%list
  /\ Run.isTodoValid Run.item (Run.tip Run.created) = false
  /\ TodoChain (world_of (Run.appendTodo StatusCreated Run.item (Run.fresh Run.created)))
     = TodoChain Run.created
  /\ w (world_of (Run.appendTodo StatusCreated Run.item (Run.fresh Run.created)))
     = w (world_of (Run.appendTodo StatusCreated Run.item (Run.fresh Run.started)))
  /\ w (world_of (Run.appendTodo StatusCreated Run.item (Run.fresh Run.created)))
     = mkResponseWriter (Some StatusCreated) [JTodo Run.item].
Proof.
  conjuncts; evaluate.
Qed.


Lemma loadTodoDetail_found_iff_witness :
  Hash Run.item <> ""
  /\ Run.unknown <> ""
  /\ (exists original,
         Run.loadTodoDetail (Hash Run.item) (TodoChain Run.updated)
         = (Some (mkTodoDetail original
                    (filter (fun td => OrigHash td =? Hash Run.item)
                            (TodoChain Run.updated))), None)
         /\ Hash original = Hash Run.item)
  /\ Run.loadTodoDetail Run.unknown (TodoChain Run.updated)
     = (None, errors_New "original todo not found").
Proof.
  assert (H1 : Hash Run.item <> "") by differ.
  assert (H2 : Run.unknown <> "") by differ.
  split; [exact H1|]. split; [exact H2|]. split.
  - destruct (proj2 (loadTodoDetail_found_iff Run.Time Run.Time_zero
                       (Hash Run.item) (TodoChain Run.updated) (or_introl H1)))
      as (original & Hrun & _ & _ & Hh).
    + exists (nth 1 (TodoChain Run.updated) Run.zero). split.
      * apply nth_error_In with (n := 1%nat). evaluate.
      * evaluate.
    + exists original. split; [exact Hrun|exact Hh].
  - apply (proj2 (proj1 (loadTodoDetail_found_iff Run.Time Run.Time_zero
                           Run.unknown (TodoChain Run.updated) (or_introl H2)))).
    intros td Hin E.
    assert (Hall : forallb (fun td => negb (Hash td =? Run.unknown))
                           (TodoChain Run.updated) = true) by evaluate.
    pose proof (proj1 (forallb_forall _ _) Hall td Hin) as Hne.
    cbv beta in Hne. rewrite E, String.eqb_refl in Hne. discriminate Hne.
Defined.

(** The hypothesis on the query and the chain leaves out one case only,
    the empty query on a chain that holds a record with an empty [Hash]:
    there the sentinel reports the original as not found. *)
Remark loadTodoDetail_empty_hash :
  In Run.zero [Run.zero]
  /\ Hash Run.zero = ""
  /\ Run.loadTodoDetail "" [Run.zero] = (None, Some "original todo not found").
Proof.
  split; [left; exact eq_refl|]. split; evaluate.
Qed.

Lemma calculateHash_not_injective_witness :
  validRune 0xD800 = false
  /\ validRune 0x110000 = false
  /\ Index (set_Index Run.item 0xD800) <> Index (set_Index Run.item 0x110000)
  /\ Run.calculateHash (set_Index Run.item 0xD800)
     = Run.calculateHash (set_Index Run.item 0x110000).
Proof.
  assert (H1 : validRune 0xD800 = false) by evaluate.
  assert (H2 : validRune 0x110000 = false) by evaluate.
  split; [exact H1|]. split; [exact H2|]. split; [differ|].
  exact (proj1 (proj2 (calculateHash_not_injective Run.Time Run.Time_String)
                      Run.item 0xD800 0x110000 H1 H2)).
Defined.

(** ** Further properties on the run above *)

Module RunX.

Abbreviation chainContainsOriginalTodo := (chainContainsOriginalTodo Run.Time).
Abbreviation handleCreateTodo :=
  (handleCreateTodo Run.Time Run.Time_zero Run.Time_String Run.now Run.os_Create).
Abbreviation handleUpdateTodo :=
  (handleUpdateTodo Run.Time Run.Time_zero Run.Time_String Run.now Run.os_Create).
Abbreviation handleCompleteTodo :=
  (handleCompleteTodo Run.Time Run.Time_zero Run.Time_String Run.now Run.os_Create).
Abbreviation handleDeleteTodo :=
  (handleDeleteTodo Run.Time Run.Time_zero Run.Time_String Run.now Run.os_Create).
Abbreviation serveAll :=
  (serveAll Run.Time Run.Time_zero Run.Time_String Run.now Run.os_Create).


(** The history of the item of scenario 1 once it is completed. *)
Definition history : TodoDetail Run.Time :=
  mkTodoDetail Run.item [Run.tip Run.completed].

(** The item of scenario 1 with another [OrigHash]. *)
Definition item' : Todo Run.Time := set_OrigHash Run.item Run.unknown.

End RunX.

Lemma findTodo_loadTodoDetail_agree_witness :
  Hash Run.item <> ""
  /\ snd (Run.findTodo (Hash Run.item) (TodoChain Run.updated))
     = snd (Run.loadTodoDetail (Hash Run.item) (TodoChain Run.updated)).
Proof.
  assert (Hne : Hash Run.item <> "") by differ.
  split; [exact Hne|].
  exact (proj1 (findTodo_loadTodoDetail_agree Run.Time Run.Time_zero
                  (Hash Run.item) (TodoChain Run.updated) Hne)).
Defined.


Lemma handleCreateTodo_appends_witness :
  Run.tipTodo Run.started = Ret Run.genesis Run.started
  /\ Run.os_Create (creates Run.started) = None
  /\ exists newTodo s',
       RunX.handleCreateTodo (Some Run.milk) Run.started = Ret tt s'
       /\ TodoChain s' = (TodoChain Run.started ++ [newTodo])%list
       /\ Title newTodo = mTitle Run.milk
       /\ OrigHash newTodo = mOrigHash Run.milk.
Proof.
  assert (H1 : Run.tipTodo Run.started = Ret Run.genesis Run.started) by evaluate.
  assert (H2 : Run.os_Create (creates Run.started) = None) by evaluate.
  split; [exact H1|]. split; [exact H2|].
  destruct (handleCreateTodo_appends Run.Time Run.Time_zero Run.Time_String Run.now
              Run.os_Create Run.milk Run.started Run.genesis H1 H2)
    as (c & s' & Hrun & Hc & _ & _ & _ & Ht & _ & Ho & _).
  exists c, s'. split; [exact Hrun|]. split; [exact Hc|]. split; [exact Ht|exact Ho].
Defined.

Lemma handleUpdateTodo_appends_witness :
  Run.tipTodo Run.created = Ret Run.item Run.created
  /\ Run.os_Create (creates Run.created) = None
  /\ exists updateTodo s',
       RunX.handleUpdateTodo Run.unknown (Some Run.milk) Run.created = Ret tt s'
       /\ TodoChain s' = (TodoChain Run.created ++ [updateTodo])%list
       /\ OrigHash updateTodo = Run.unknown
       /\ CompleteStamp updateTodo = Run.Time_zero.
Proof.
  assert (H1 : Run.tipTodo Run.created = Ret Run.item Run.created) by evaluate.
  assert (H2 : Run.os_Create (creates Run.created) = None) by evaluate.
  split; [exact H1|]. split; [exact H2|].
  destruct (handleUpdateTodo_appends Run.Time Run.Time_zero Run.Time_String Run.now
              Run.os_Create Run.unknown Run.milk Run.created Run.item H1 H2)
    as (c & s' & Hrun & Hc & _ & _ & _ & _ & _ & Ho & _ & _ & Hk & _).
  exists c, s'. split; [exact Hrun|]. split; [exact Hc|]. split; [exact Ho|exact Hk].
Defined.

Lemma handleCompleteTodo_appends_witness :
  Run.findTodo (Hash Run.item) (TodoChain Run.created) = (Some Run.item, None)
  /\ Run.tipTodo Run.created = Ret Run.item Run.created
  /\ Run.os_Create (creates Run.created) = None
  /\ exists completeTodo s',
       RunX.handleCompleteTodo (Hash Run.item) Run.created = Ret tt s'
       /\ TodoChain s' = (TodoChain Run.created ++ [completeTodo])%list
       /\ Title completeTodo = Title Run.item
       /\ CompleteStamp completeTodo = Run.now (S (ticks Run.created))
       /\ DeleteStamp completeTodo = DeleteStamp Run.item.
Proof.
  assert (H0 : Run.findTodo (Hash Run.item) (TodoChain Run.created)
               = (Some Run.item, None)) by evaluate.
  assert (H1 : Run.tipTodo Run.created = Ret Run.item Run.created) by evaluate.
  assert (H2 : Run.os_Create (creates Run.created) = None) by evaluate.
  split; [exact H0|]. split; [exact H1|]. split; [exact H2|].
  destruct (handleCompleteTodo_appends Run.Time Run.Time_zero Run.Time_String
              Run.now Run.os_Create (Hash Run.item) Run.created Run.item Run.item
              H0 H1 H2)
    as (c & s' & Hrun & Hc & _ & _ & _ & Ht & _ & _ & _ & _ & Hk & Hd).
  exists c, s'. split; [exact Hrun|]. split; [exact Hc|].
  split; [exact Ht|]. split; [exact Hk|exact Hd].
Defined.

Lemma handleDeleteTodo_appends_witness :
  Run.findTodo (Hash Run.item) (TodoChain Run.completed) = (Some Run.item, None)
  /\ Run.tipTodo Run.completed = Ret (Run.tip Run.completed) Run.completed
  /\ Run.os_Create (creates Run.completed) = None
  /\ exists deleteTodo s',
       RunX.handleDeleteTodo (Hash Run.item) Run.completed = Ret tt s'
       /\ TodoChain s' = (TodoChain Run.completed ++ [deleteTodo])%list
       /\ DeleteStamp deleteTodo = Run.now (S (ticks Run.completed))
       /\ CompleteStamp deleteTodo = CompleteStamp Run.item.
Proof.
  assert (H0 : Run.findTodo (Hash Run.item) (TodoChain Run.completed)
               = (Some Run.item, None)) by evaluate.
  assert (H1 : Run.tipTodo Run.completed
               = Ret (Run.tip Run.completed) Run.completed) by evaluate.
  assert (H2 : Run.os_Create (creates Run.completed) = None) by evaluate.
  split; [exact H0|]. split; [exact H1|]. split; [exact H2|].
  destruct (handleDeleteTodo_appends Run.Time Run.Time_zero Run.Time_String
              Run.now Run.os_Create (Hash Run.item) Run.completed
              (Run.tip Run.completed) Run.item H0 H1 H2)
    as (c & s' & Hrun & Hc & _ & _ & _ & _ & _ & _ & _ & _ & Hd & Hk).
  exists c, s'. split; [exact Hrun|]. split; [exact Hc|]. split; [exact Hd|exact Hk].
Defined.


Lemma ServeHTTP_panics_iff_witness :
  forallb (fun td => negb (Hash td =? Run.unknown)) (TodoChain Run.updated) = true
  /\ (exists s', Run.ServeHTTP (DELETE_hash Run.unknown) Run.updated = Panic s')
  /\ ~ (exists s', Run.ServeHTTP GET_api Run.updated = Panic s').
Proof.
  assert (Hall : forallb (fun td => negb (Hash td =? Run.unknown))
                         (TodoChain Run.updated) = true) by evaluate.
  split; [exact Hall|]. split.
  - apply (proj2 (ServeHTTP_panics_iff Run.Time Run.Time_zero Run.Time_String
                    Run.now Run.os_Create (DELETE_hash Run.unknown) Run.updated)).
    intros td Hin E.
    pose proof (proj1 (forallb_forall _ _) Hall td Hin) as Hne.
    cbv beta in Hne. rewrite E, String.eqb_refl in Hne. discriminate Hne.
  - exact (proj1 (ServeHTTP_panics_iff Run.Time Run.Time_zero Run.Time_String
                    Run.now Run.os_Create GET_api Run.updated)).
Defined.

Lemma read_requests_idempotent_witness :
  exists s',
    Run.ServeHTTP (GET_hash (Hash Run.item)) Run.updated = Ret tt s'
    /\ TodoChain s' = TodoChain Run.updated
    /\ Run.ServeHTTP (GET_hash (Hash Run.item)) s'
       = Run.ServeHTTP (GET_hash (Hash Run.item)) Run.updated.
Proof.
  destruct (read_requests_idempotent Run.Time Run.Time_zero Run.Time_String
              Run.now Run.os_Create (GET_hash (Hash Run.item)) Run.updated)
    as (s' & Hrun & Hc & _ & _ & _ & Hagain & _).
  - right. left. exists (Hash Run.item). reflexivity.
  - exists s'. split; [exact Hrun|]. split; [exact Hc|exact Hagain].
Defined.

Lemma main_builds_genesis_witness :
  Run.os_Create 0 = None
  /\ exists g,
       Index g = 0
       /\ Run.calculateHash g = (Hash g, None)
       /\ Run.main (boot None)
          = Ret tt (mkWorld [g] (Some [g]) 1 1 (mkResponseWriter None [])).
Proof.
  assert (H : Run.os_Create 0 = None) by evaluate.
  split; [exact H|].
  destruct (main_builds_genesis Run.Time Run.Time_zero Run.Time_String Run.now
              Run.os_Create Run.gobDecode)
    as (g & Hi & _ & _ & _ & _ & _ & _ & _ & _ & Hh & Hok & _).
  exists g. split; [exact Hi|]. split; [exact Hh|exact (Hok H)].
Defined.

Lemma main_loads_file_witness :
  Run.gobDecode (TodoChain Run.created) = (TodoChain Run.created, None)
  /\ Run.os_Create 0 = None
  /\ Run.main (boot (Some (TodoChain Run.created)))
     = Ret tt (mkWorld (TodoChain Run.created) (Some (TodoChain Run.created)) 0 1
                       (mkResponseWriter None [])).
Proof.
  assert (H1 : Run.gobDecode (TodoChain Run.created) = (TodoChain Run.created, None))
    by reflexivity.
  assert (H2 : Run.os_Create 0 = None) by evaluate.
  split; [exact H1|]. split; [exact H2|].
  exact (proj1 (proj2 (main_loads_file Run.Time Run.Time_zero Run.Time_String
                         Run.now Run.os_Create Run.gobDecode (TodoChain Run.created))
                      (TodoChain Run.created) H1 H2)).
Defined.


Lemma served_lookup_sound_witness :
  forallb (fun td => negb (Hash td =? "")) (Run.served Run.requests) = true
  /\ Run.loadTodoDetail "" (Run.served Run.requests)
     = (None, errors_New "original todo not found").
Proof.
  assert (Hall : forallb (fun td => negb (Hash td =? ""))
                         (Run.served Run.requests) = true) by evaluate.
  split; [exact Hall|].
  apply (proj2 (proj1 (proj2 (served_lookup_sound Run.Time Run.Time_zero
                                Run.Time_String Run.now Run.os_Create
                                Run.gobDecode Run.requests "")))).
  intros td Hin E.
  pose proof (proj1 (forallb_forall _ _) Hall td Hin) as Hne.
  cbv beta in Hne. rewrite E, String.eqb_refl in Hne. discriminate Hne.
Defined.

Lemma loadTodoDetail_snoc_witness :
  Hash Run.item <> ""
  /\ Hash (Run.tip Run.updated) <> Hash Run.item
  /\ Run.loadTodoDetail (Hash Run.item) (TodoChain Run.completed)
     = (Some RunX.history, None)
  /\ Run.loadTodoDetail (Hash Run.item)
                        (TodoChain Run.completed ++ [Run.tip Run.updated])
     = (Some (mkTodoDetail (OriginalTodo RunX.history)
                (Updates RunX.history
                 ++ (if OrigHash (Run.tip Run.updated) =? Hash Run.item
                     then [Run.tip Run.updated] else []))%list),
        None).
Proof.
  assert (H1 : Hash Run.item <> "") by differ.
  assert (H2 : Hash (Run.tip Run.updated) <> Hash Run.item) by differ.
  assert (H3 : Run.loadTodoDetail (Hash Run.item) (TodoChain Run.completed)
               = (Some RunX.history, None)) by evaluate.
  split; [exact H1|]. split; [exact H2|]. split; [exact H3|].
  exact (proj1 (proj1 (loadTodoDetail_snoc Run.Time Run.Time_zero (Hash Run.item)
                         (TodoChain Run.completed) (Run.tip Run.updated) H1) H2)
               RunX.history H3).
Defined.

Lemma isTodoValid_successor_witness :
  Run.isTodoValid Run.item Run.genesis = true
  /\ Run.isTodoValid RunX.item' Run.genesis = true
  /\ Index Run.item = Index RunX.item'
  /\ PrevHash Run.item = PrevHash RunX.item'.
Proof.
  assert (H1 : Run.isTodoValid Run.item Run.genesis = true) by evaluate.
  assert (H2 : Run.isTodoValid RunX.item' Run.genesis = true) by evaluate.
  split; [exact H1|]. split; [exact H2|].
  exact (proj2 (isTodoValid_successor Run.Time Run.Time_String Run.item RunX.item'
                  Run.genesis) H1 H2).
Defined.
